(** * A shallow embedding of [app.py], the monopoly-like game simulation

    Python integers are unbounded, so they are modelled by [Z].  Python
    lists are [list]s read and written through [getitem] and [setitem],
    which implement Python's subscript rules (negative subscripts count
    from the end, anything else out of range raises [IndexError]).

    Player objects are mutable and compared by identity ([is]); one list of
    player objects is shared by all the games of a [GameRunner].  They live
    in an object store ([heap]) and are named by references ([ref]).
    Property objects are only reached through the board that holds them, so
    a board is a list of property values updated in place; the properties of
    a board are taken to be pairwise distinct objects, as [random_board]
    builds them.

    The global random generator is replaced by explicit inputs: the value
    returned by [roll_die], the value [coin_toss] returns if it is called,
    and the prices drawn by [random_property]. *)

From Stdlib Require Import ZArith QArith Lia Bool.
From stdpp Require Import base list option.

Local Open Scope Z_scope.

(** ** Outcomes of a computation *)

Inductive exn : Type :=
| IndexError
| ZeroDivisionError
| ValueError
| KeyError.

(** [OutOfFuel] is not a Python outcome: it marks a run of the model cut
    short by the bound given to a loop or to a recursion. *)
Inductive result (A : Type) : Type :=
| Ok (a : A)
| Raise (e : exn)
| OutOfFuel.

Arguments Ok {A} a.
Arguments Raise {A} e.
Arguments OutOfFuel {A}.

Definition bind {A B : Type} (m : result A) (f : A -> result B) : result B :=
  match m with
  | Ok a => f a
  | Raise e => Raise e
  | OutOfFuel => OutOfFuel
  end.

Notation "x <- m ;; f" := (bind m (fun x => f))
  (at level 100, m at next level, right associativity).

Fixpoint mapM {A B : Type} (f : A -> result B) (l : list A) : result (list B) :=
  match l with
  | [] => Ok []
  | x :: rest => y <- f x ;; ys <- mapM f rest ;; Ok (y :: ys)
  end.

(** ** Python subscripts *)

Definition normalize_index (len : nat) (i : Z) : result nat :=
  if (0 <=? i) && (i <? Z.of_nat len) then Ok (Z.to_nat i)
  else if (- Z.of_nat len <=? i) && (i <? 0) then Ok (Z.to_nat (Z.of_nat len + i))
  else Raise IndexError.

(** [l[i]] *)
Definition getitem {A : Type} (l : list A) (i : Z) : result A :=
  k <- normalize_index (length l) i ;;
  match l !! k with
  | Some x => Ok x
  | None => Raise IndexError
  end.

(** [l[i] = x] *)
Definition setitem {A : Type} (l : list A) (i : Z) (x : A) : result (list A) :=
  k <- normalize_index (length l) i ;;
  Ok (<[k := x]> l).

(** [a / b] on integers; the float rounding of the quotient is not modelled. *)
Definition truediv (a b : Z) : result Q :=
  if b =? 0 then Raise ZeroDivisionError
  else Ok (Qdiv (inject_Z a) (inject_Z b)).

(** [max(l)] *)
Definition py_max (l : list Z) : result Z :=
  match l with
  | [] => Raise ValueError
  | x :: rest => Ok (fold_left Z.max rest x)
  end.

(** ** Players *)

Inductive Behavior : Type :=
| ImpulsivePlayer
| DemandingPlayer
| CautiousPlayer
| RandomPlayer.

Record Player : Type := mkPlayer {
  behavior : Behavior;
  balance : Z
}.

(** [AbstractPlayer.__init__] *)
Definition new_player (b : Behavior) : Player :=
  {| behavior := b; balance := 300 |}.

Definition ref : Type := nat.
Definition heap : Type := ref -> Player.

Definition heap_set (h : heap) (p : ref) (v : Player) : heap :=
  fun q => if Nat.eqb q p then v else h q.

Definition get_balance (h : heap) (p : ref) : Z := balance (h p).

Definition increase_balance (h : heap) (p : ref) (amount_to_increase : Z) : heap :=
  heap_set h p {| behavior := behavior (h p);
                  balance := balance (h p) + amount_to_increase |}.

Definition decrease_balance (h : heap) (p : ref) (amount_to_decrease : Z) : heap :=
  heap_set h p {| behavior := behavior (h p);
                  balance := balance (h p) - amount_to_decrease |}.

(** ** Properties *)

Record Property : Type := mkProperty {
  sell_cost : Z;
  rent_cost : Z;
  owner : option ref
}.

(** [Property.__init__] *)
Definition new_Property (sell rent : Z) : Property :=
  {| sell_cost := sell; rent_cost := rent; owner := None |}.

Definition has_owner (pr : Property) : bool :=
  match owner pr with Some _ => true | None => false end.

Definition set_owner (pr : Property) (new_owner : option ref) : Property :=
  {| sell_cost := sell_cost pr; rent_cost := rent_cost pr; owner := new_owner |}.

(** [coin] is what [coin_toss] returns when [RandomPlayer] calls it. *)
Definition decide_to_buy (h : heap) (p : ref) (pr : Property) (coin : bool) : bool :=
  match behavior (h p) with
  | ImpulsivePlayer => true
  | DemandingPlayer => 50 <? rent_cost pr
  | CautiousPlayer => sell_cost pr + 80 <=? get_balance h p
  | RandomPlayer => coin
  end.

Definition transfer (h : heap) (p_from p_to : ref) (amount : Z) : heap :=
  if Nat.eqb p_from p_to then h
  else
    let h1 := increase_balance h p_to (Z.min (get_balance h p_from) amount) in
    decrease_balance h1 p_from amount.

(** [owner is player] *)
Definition owner_is (pr : Property) (p : ref) : bool :=
  match owner pr with
  | Some o => Nat.eqb o p
  | None => false
  end.

(** [random_property]: [sell] and [rent] are the values drawn by
    [random.randint], which raises [ValueError] on an empty range. *)
Definition random_property (max_sell_cost max_rent_cost : Z) (sell rent : Z)
  : result Property :=
  if max_sell_cost <? 1 then Raise ValueError
  else if max_rent_cost <? 1 then Raise ValueError
  else Ok (new_Property sell rent).

(** ** Board *)

Abbreviation Board := (list Property).

Definition property_at (b : Board) (board_position : Z) : result Property :=
  getitem b board_position.

(** [random_board]: [draws i] holds the two prices drawn for cell [i]. *)
Definition random_board (max_sell_cost max_rent_cost : Z) (draws : nat -> Z * Z)
  : result Board :=
  mapM (fun i => random_property max_sell_cost max_rent_cost
                   (fst (draws i)) (snd (draws i)))
       (seq 0 20).

(** ** Game *)

Record Game : Type := mkGame {
  board : Board;
  players : list ref;
  current_player : Z;
  current_turn : Z;
  player_position : list Z;
  active_player : list bool
}.

(** [Game.__init__] *)
Definition new_Game (b : Board) (ps : list ref) : Game :=
  {| board := b;
     players := ps;
     current_player := 0;
     current_turn := 1;
     player_position := map (fun _ => 0) ps;
     active_player := map (fun _ => true) ps |}.

Definition with_board (g : Game) (b : Board) : Game :=
  {| board := b; players := players g; current_player := current_player g;
     current_turn := current_turn g; player_position := player_position g;
     active_player := active_player g |}.

Definition with_current_player (g : Game) (i : Z) : Game :=
  {| board := board g; players := players g; current_player := i;
     current_turn := current_turn g; player_position := player_position g;
     active_player := active_player g |}.

Definition with_current_turn (g : Game) (t : Z) : Game :=
  {| board := board g; players := players g; current_player := current_player g;
     current_turn := t; player_position := player_position g;
     active_player := active_player g |}.

Definition with_player_position (g : Game) (pp : list Z) : Game :=
  {| board := board g; players := players g; current_player := current_player g;
     current_turn := current_turn g; player_position := pp;
     active_player := active_player g |}.

Definition with_active_player (g : Game) (act : list bool) : Game :=
  {| board := board g; players := players g; current_player := current_player g;
     current_turn := current_turn g; player_position := player_position g;
     active_player := act |}.

(** [[id for id in ids if active[id]]] *)
Fixpoint active_ids (active : list bool) (ids : list nat) : result (list nat) :=
  match ids with
  | [] => Ok []
  | id :: rest =>
      a <- getitem active (Z.of_nat id) ;;
      r <- active_ids active rest ;;
      Ok (if a : bool then id :: r else r)
  end.

Definition has_winner (g : Game) : result (option ref) :=
  let num_players := length (players g) in
  active_players <- active_ids (active_player g) (seq 0 num_players) ;;
  match active_players with
  | [active_player_id] =>
      p <- getitem (players g) (Z.of_nat active_player_id) ;;
      Ok (Some p)
  | _ => Ok None
  end.

Definition player_with_highest_balance (h : heap) (g : Game) : result ref :=
  max_balance <- py_max (map (get_balance h) (players g)) ;;
  let max_balance_players :=
    List.filter (fun p => get_balance h p =? max_balance) (players g) in
  getitem max_balance_players 0.

(** [has_winner() or current_turn >= 1000], as a truth value: a player
    object is always true. *)
Definition stop_condtion (g : Game) : result bool :=
  w <- has_winner g ;;
  match w with
  | Some _ => Ok true
  | None => Ok (1000 <=? current_turn g)
  end.

(** [fuel] bounds the depth of the recursion. *)
Fixpoint next_player_turn (fuel : nat) (g : Game) : result Game :=
  match fuel with
  | O => OutOfFuel
  | S fuel' =>
      let n := Z.of_nat (length (players g)) in
      if n =? 0 then Raise ZeroDivisionError
      else
        let g1 := with_current_player g ((current_player g + 1) mod n) in
        a <- getitem (active_player g1) (current_player g1) ;;
        if negb a then next_player_turn fuel' g1 else Ok g1
  end.

Definition adjust_position_to_length (g : Game) (player_id : Z)
  : result (Game * bool) :=
  let board_length := Z.of_nat (length (board g)) in
  pos <- getitem (player_position g) player_id ;;
  if board_length <=? pos then
    if board_length =? 0 then Raise ZeroDivisionError
    else
      pp <- setitem (player_position g) player_id (pos mod board_length) ;;
      Ok (with_player_position g pp, true)
  else Ok (g, false).

Definition apply_defeat_to (g : Game) (player_id : Z) : result Game :=
  act <- setitem (active_player g) player_id false ;;
  b <- mapM (fun pr =>
               p <- getitem (players g) player_id ;;
               Ok (if owner_is pr p then set_owner pr None else pr))
            (board g) ;;
  Ok (with_board (with_active_player g act) b).

(** [__turn] is written in three parts.  First part, up to the bonus
    ([player_id] to [player.increase_balance(100)]): the player moves by
    [die_roll], the value returned by [roll_die].  It returns the new state
    and the local variable [player]. *)
Definition turn_move (die_roll : Z) (s : heap * Game) : result (heap * Game * ref) :=
  let h := fst s in
  let g := snd s in
  let player_id := current_player g in
  player <- getitem (players g) player_id ;;
  pos <- getitem (player_position g) player_id ;;
  pp <- setitem (player_position g) player_id (pos + die_roll) ;;
  let g := with_player_position g pp in
  r <- adjust_position_to_length g player_id ;;
  let g := fst r in
  let completed_track := snd r in
  let h := if completed_track : bool then increase_balance h player 100 else h in
  Ok (h, g, player).

(** The branch of [__turn] taken on a property that has an owner. *)
Definition pay_rent (player : ref) (property : Property) (o : ref)
                    (s : heap * Game) : result (heap * Game) :=
  let g := snd s in
  let h := transfer (fst s) player o (rent_cost property) in
  if get_balance h player <? 0 then
    g <- apply_defeat_to g (current_player g) ;;
    Ok (h, g)
  else Ok (h, g).

(** The branch of [__turn] taken on a property without owner; [pos] is the
    position of [property] on the board and [coin] the value of [coin_toss]
    should the player's strategy call it. *)
Definition try_to_buy (coin : bool) (player : ref) (pos : Z) (property : Property)
                      (s : heap * Game) : result (heap * Game) :=
  let h := fst s in
  let g := snd s in
  if (sell_cost property <=? get_balance h player)
     && decide_to_buy h player property coin
  then
    b <- setitem (board g) pos (set_owner property (Some player)) ;;
    Ok (decrease_balance h player (sell_cost property), with_board g b)
  else Ok (h, g).

(** Second part of [__turn]: what happens on the property the player stands
    on. *)
Definition turn_land (coin : bool) (player : ref) (s : heap * Game)
  : result (heap * Game) :=
  let g := snd s in
  pos <- getitem (player_position g) (current_player g) ;;
  property <- property_at (board g) pos ;;
  match owner property with
  | Some o => pay_rent player property o s
  | None => try_to_buy coin player pos property s
  end.

(** Third part of [__turn]: the turn counter and the next player; [fuel] is
    the bound passed to [next_player_turn]. *)
Definition turn_end (fuel : nat) (s : heap * Game) : result (heap * Game) :=
  let g := with_current_turn (snd s) (current_turn (snd s) + 1) in
  g <- next_player_turn fuel g ;;
  Ok (fst s, g).

Definition turn (fuel : nat) (die_roll : Z) (coin : bool) (s : heap * Game)
  : result (heap * Game) :=
  r <- turn_move die_roll s ;;
  s1 <- turn_land coin (snd r) (fst r) ;;
  turn_end fuel s1.

(** [play]: [rolls k] is the die roll and the coin of the [k]-th turn played
    from now on; [fuel] bounds the number of turns, [depth] is passed to
    [turn]. *)
Fixpoint play (depth fuel : nat) (rolls : nat -> Z * bool) (s : heap * Game)
  : result (heap * Game) :=
  stop <- stop_condtion (snd s) ;;
  if stop : bool then Ok s
  else
    match fuel with
    | O => OutOfFuel
    | S fuel' =>
        s' <- turn depth (fst (rolls O)) (snd (rolls O)) s ;;
        play depth fuel' (fun k => rolls (S k)) s'
    end.

Definition random_game (max_sell_cost max_rent_cost : Z) (ps : list ref)
                       (draws : nat -> Z * Z) : result Game :=
  b <- random_board max_sell_cost max_rent_cost draws ;;
  Ok (new_Game b ps).

(** ** GameRunner *)

(** The keys of [wins_per_behavior] are classes: the four behaviours and
    [type(None)], here [None].  A dict keeps its keys in insertion order. *)
Abbreviation behavior_dict V := (list (option Behavior * V)).

Record GameRunner : Type := mkGameRunner {
  runner_players : list ref;
  max_sell_cost : Z;
  max_rent_cost : Z;
  games_simulated : Z;
  timed_out_games : Z;
  num_turns : list Z;
  winner : list ref;
  wins_per_behavior : behavior_dict Z
}.

Definition key_eqb (a b : option Behavior) : bool :=
  match a, b with
  | None, None => true
  | Some ImpulsivePlayer, Some ImpulsivePlayer => true
  | Some DemandingPlayer, Some DemandingPlayer => true
  | Some CautiousPlayer, Some CautiousPlayer => true
  | Some RandomPlayer, Some RandomPlayer => true
  | _, _ => false
  end.

(** [d[k] += 1] *)
Fixpoint dict_incr (d : behavior_dict Z) (k : option Behavior)
  : result (behavior_dict Z) :=
  match d with
  | [] => Raise KeyError
  | (k', v) :: rest =>
      if key_eqb k' k then Ok ((k', v + 1) :: rest)
      else r <- dict_incr rest k ;; Ok ((k', v) :: r)
  end.

(** [d.pop(k)], keeping the dict only *)
Fixpoint dict_pop {V : Type} (d : behavior_dict V) (k : option Behavior)
  : result (behavior_dict V) :=
  match d with
  | [] => Raise KeyError
  | (k', v) :: rest =>
      if key_eqb k' k then Ok rest
      else r <- dict_pop rest k ;; Ok ((k', v) :: r)
  end.

(** [GameRunner.__init__] *)
Definition new_GameRunner (ps : list ref) (max_sell max_rent : Z) : GameRunner :=
  {| runner_players := ps;
     max_sell_cost := max_sell;
     max_rent_cost := max_rent;
     games_simulated := 0;
     timed_out_games := 0;
     num_turns := [];
     winner := [];
     wins_per_behavior :=
       map (fun b => (b, 0))
           [Some ImpulsivePlayer; Some DemandingPlayer; Some CautiousPlayer;
            Some RandomPlayer; None] |}.

Definition sum (l : list Z) : Z := fold_left Z.add l 0.

Definition get_average_num_turns (r : GameRunner) : result Q :=
  truediv (sum (num_turns r)) (Z.of_nat (length (num_turns r))).

Definition get_win_percentage_per_behavior (r : GameRunner)
  : result (behavior_dict Q) :=
  res <- mapM (fun kv => q <- truediv (snd kv) (games_simulated r) ;;
                         Ok (fst kv, q))
              (wins_per_behavior r) ;;
  dict_pop res None.

Definition get_timed_out_games (r : GameRunner) : Z := timed_out_games r.

(** The random inputs of one simulated game. *)
Record Draws : Type := mkDraws {
  prices : nat -> Z * Z;
  rolls : nat -> Z * bool
}.

Definition play_game (depth fuel : nat) (d : Draws) (s : heap * GameRunner)
  : result (heap * GameRunner) :=
  let h := fst s in
  let r := snd s in
  game <- random_game (max_sell_cost r) (max_rent_cost r) (runner_players r)
                      (prices d) ;;
  s' <- play depth fuel (rolls d) (h, game) ;;
  let h := fst s' in
  let game := snd s' in
  let games := games_simulated r + 1 in
  w <- has_winner game ;;
  tw <- match w with
        | None =>
            p <- player_with_highest_balance h game ;;
            Ok (timed_out_games r + 1, winner r ++ [p])
        | Some p => Ok (timed_out_games r, winner r ++ [p])
        end ;;
  let turns := num_turns r ++ [current_turn game] in
  wins <- dict_incr (wins_per_behavior r) (option_map (fun p => behavior (h p)) w) ;;
  Ok (h, {| runner_players := runner_players r;
            max_sell_cost := max_sell_cost r;
            max_rent_cost := max_rent_cost r;
            games_simulated := games;
            timed_out_games := fst tw;
            num_turns := turns;
            winner := snd tw;
            wins_per_behavior := wins |}).

(** The loop of [report]: [draws i] are the random inputs of game [i]. *)
Fixpoint play_games (depth fuel : nat) (draws : list Draws) (s : heap * GameRunner)
  : result (heap * GameRunner) :=
  match draws with
  | [] => Ok s
  | d :: rest => s' <- play_game depth fuel d s ;; play_games depth fuel rest s'
  end.

(** The four players of [report], one per behaviour, at references 0 to 3. *)
Definition report_heap : heap :=
  fun p =>
    match p with
    | 0%nat => new_player ImpulsivePlayer
    | 1%nat => new_player DemandingPlayer
    | 2%nat => new_player CautiousPlayer
    | _ => new_player RandomPlayer
    end.

Definition report_players : list ref := [0%nat; 1%nat; 2%nat; 3%nat].

(** [report] up to the values it prints: the number of timed out games, the
    average number of turns and the win percentages. *)
Definition report (depth fuel : nat) (max_sell max_rent : Z) (draws : list Draws)
  : result (Z * Q * behavior_dict Q) :=
  let game_runner := new_GameRunner report_players max_sell max_rent in
  s <- play_games depth fuel draws (report_heap, game_runner) ;;
  let timed_out := get_timed_out_games (snd s) in
  average_num_turns <- get_average_num_turns (snd s) ;;
  win_percentage_per_behavior <- get_win_percentage_per_behavior (snd s) ;;
  Ok (timed_out, average_num_turns, win_percentage_per_behavior).

(** ** Predicates on games *)

(** The shape of the game states built by [Game.__init__] on a board that is
    not empty and kept by every turn: one position and one flag per player,
    positions on the board, a current player among the players, and some
    player still active. *)
Record wf_game (g : Game) : Prop := mk_wf_game {
  wf_board : board g <> [];
  wf_positions : length (player_position g) = length (players g);
  wf_active : length (active_player g) = length (players g);
  wf_current : 0 <= current_player g < Z.of_nat (length (players g));
  wf_on_board :
    Forall (fun pos => 0 <= pos < Z.of_nat (length (board g))) (player_position g);
  wf_some_active : exists i : nat, active_player g !! i = Some true
}.

(** The indices of the active players, in increasing order. *)
Definition active_indices (g : Game) : list nat :=
  filter (fun i => active_player g !! i = Some true) (seq 0 (length (players g))).

(** The owner of every owned property is an active player of the game. *)
Definition owners_active (g : Game) : Prop :=
  forall (pr : Property) (o : ref),
    pr ∈ board g -> owner pr = Some o ->
    exists i : nat, players g !! i = Some o /\ active_player g !! i = Some true.

(** What every turn keeps, besides [owners_active]: one flag per player,
    and a current player who is active (unless there is no player). *)
Record game_inv (g : Game) : Prop := mk_game_inv {
  inv_active : length (active_player g) = length (players g);
  inv_current :
    players g = [] \/
    (0 <= current_player g < Z.of_nat (length (players g)) /\
     active_player g !! Z.to_nat (current_player g) = Some true);
  inv_owners : owners_active g
}.

(** The states of a game: those built by [Game.__init__] from properties
    without owner, as [Property.__init__] leaves them, and those a turn
    leads to, whatever the die and the coin. *)
Inductive reachable : heap * Game -> Prop :=
| reachable_init (h : heap) (b : Board) (ps : list ref) :
    Forall (fun pr => owner pr = None) b ->
    reachable (h, new_Game b ps)
| reachable_turn (s s' : heap * Game) (fuel : nat) (die_roll : Z) (coin : bool) :
    reachable s ->
    turn fuel die_roll coin s = Ok s' ->
    reachable s'.

(** ** Two games of one runner

    The random inputs of two consecutive games of the runner of [report]
    with [max_sell_cost = 5000] and [max_rent_cost = 1000000]; every coin is
    [false] and every cell not listed costs 5000 with rent 1.

    First game, cell 1 = (301, 500000), cell 2 = (1, 1000000).  Player 0
    buys cell 2; players 2 and 3 land on it and are eliminated with balance
    -999700 each; player 0 walks round the board, buys cell 1, and player 1
    lands on it and is eliminated with -499600.  Player 0 wins with 1098 at
    turn 13.

    Second game, cell 1 = (1, 1), from the balances above.  Player 0 buys
    cell 1; player 1 lands on it, which credits player 0 with -499600, and
    is eliminated; player 0 walks round the board and is eliminated on its
    own cell with -498403.  Players 2 and 3 can buy nothing and go on by one
    cell a turn until turn 1000. *)

Definition prices_of (special : list (nat * (Z * Z))) (i : nat) : Z * Z :=
  match List.find (fun kv => Nat.eqb (fst kv) i) special with
  | Some kv => snd kv
  | None => (5000, 1)
  end.

Definition dice_of (dice : list Z) (k : nat) : Z * bool := (nth k dice 1, false).

Definition first_game : Draws :=
  {| prices := prices_of [(1%nat, (301, 500000)); (2%nat, (1, 1000000))];
     rolls := dice_of [2; 3; 2; 2; 6; 6; 6; 6; 6; 5; 1; 1] |}.

Definition second_game : Draws :=
  {| prices := prices_of [(1%nat, (1, 1))];
     rolls := dice_of [1; 1; 2; 2; 6; 1; 1; 6; 1; 1; 6; 1; 1; 2] |}.

Definition report_runner : GameRunner := new_GameRunner report_players 5000 1000000.

(** The draws of a game respect the ranges of [random.randint]. *)
Definition draws_in_range (max_sell max_rent : Z) (d : Draws) (turns : nat) : bool :=
  forallb (fun i => (1 <=? fst (prices d i)) && (fst (prices d i) <=? max_sell)
                    && (1 <=? snd (prices d i)) && (snd (prices d i) <=? max_rent))
          (seq 0 20)
  && forallb (fun k => (1 <=? fst (rolls d k)) && (fst (rolls d k) <=? 6))
             (seq 0 turns).

(** ** Outcomes of a turn *)

(** The board after [apply_defeat_to] for [player]. *)
Definition release (player : ref) (b : Board) : Board :=
  map (fun pr => if owner_is pr player then set_owner pr None else pr) b.

(** The four ways the second part of a turn can end for [player], from the
    store [h] and the game [g]: rent paid, rent paid and defeat, purchase,
    nothing. *)
Inductive landed (player : ref) (h : heap) (g : Game) : heap -> Game -> Prop :=
| landed_rent (k : nat) (property : Property) (o : ref) :
    board g !! k = Some property ->
    owner property = Some o ->
    0 <= get_balance (transfer h player o (rent_cost property)) player ->
    landed player h g (transfer h player o (rent_cost property)) g
| landed_defeat (k : nat) (property : Property) (o : ref) :
    board g !! k = Some property ->
    owner property = Some o ->
    get_balance (transfer h player o (rent_cost property)) player < 0 ->
    landed player h g
      (transfer h player o (rent_cost property))
      (with_board
         (with_active_player g
            (<[Z.to_nat (current_player g) := false]> (active_player g)))
         (release player (board g)))
| landed_buy (k : nat) (property : Property) :
    board g !! k = Some property ->
    owner property = None ->
    sell_cost property <= get_balance h player ->
    landed player h g
      (decrease_balance h player (sell_cost property))
      (with_board g (<[k := set_owner property (Some player)]> (board g)))
| landed_pass (k : nat) (property : Property) :
    board g !! k = Some property ->
    owner property = None ->
    landed player h g h g.

(** Some turns lead from the first state to the second. *)
Inductive turns (s : heap * Game) : heap * Game -> Prop :=
| turns_refl : turns s s
| turns_step (s' s'' : heap * Game) (fuel : nat) (die_roll : Z) (coin : bool) :
    turns s s' ->
    turn fuel die_roll coin s' = Ok s'' ->
    turns s s''.

(** Active players are not in debt and eliminated players are. *)
Definition solvent (s : heap * Game) : Prop :=
  forall (i : nat) (p : ref),
    players (snd s) !! i = Some p ->
    (active_player (snd s) !! i = Some true -> 0 <= get_balance (fst s) p) /\
    (active_player (snd s) !! i = Some false -> get_balance (fst s) p < 0).

(** What the turns of a game keep when its players are distinct objects and
    no rent is negative. *)
Record fair (s : heap * Game) : Prop := mk_fair {
  fair_inv : game_inv (snd s);
  fair_players : NoDup (players (snd s));
  fair_rents : Forall (fun r => 0 <= r) (map rent_cost (board (snd s)));
  fair_solvent : solvent s
}.

(** The bookkeeping of a runner: the five keys of [wins_per_behavior] in
    the order of [__init__], one count per key that adds up to the number of
    games, the count of [type(None)] equal to the number of timed out games,
    and one turn count and one winner per game. *)
Record tallied (r : GameRunner) : Prop := mk_tallied {
  tally_wins :
    exists a b c d : Z,
      wins_per_behavior r =
        [(Some ImpulsivePlayer, a); (Some DemandingPlayer, b);
         (Some CautiousPlayer, c); (Some RandomPlayer, d);
         (None, timed_out_games r)] /\
      0 <= a /\ 0 <= b /\ 0 <= c /\ 0 <= d /\ 0 <= timed_out_games r /\
      a + b + c + d + timed_out_games r = games_simulated r;
  tally_turns : games_simulated r = Z.of_nat (length (num_turns r));
  tally_winner : length (winner r) = length (num_turns r)
}.

(** * Properties *)

(** ** The result monad and subscripts *)

Lemma bind_Ok_inv {A B : Type} (m : result A) (f : A -> result B) (b : B) :
  bind m f = Ok b -> exists a, m = Ok a /\ f a = Ok b.
Proof.
  destruct m as [a| |]; simpl; intros H; try discriminate.
  exists a. split; [reflexivity | exact H].
Qed.

Lemma normalize_index_nonneg (len : nat) (i : Z) :
  0 <= i < Z.of_nat len -> normalize_index len i = Ok (Z.to_nat i).
Proof.
  intros [H0 H1]. unfold normalize_index.
  destruct (Z.leb_spec 0 i); [|lia].
  destruct (Z.ltb_spec i (Z.of_nat len)); [|lia].
  reflexivity.
Qed.

Lemma normalize_index_neg (len : nat) (i : Z) :
  - Z.of_nat len <= i < 0 ->
  normalize_index len i = Ok (Z.to_nat (Z.of_nat len + i)).
Proof.
  intros [H0 H1]. unfold normalize_index.
  destruct (Z.leb_spec 0 i); [lia|]. simpl.
  destruct (Z.leb_spec (- Z.of_nat len) i); [|lia].
  destruct (Z.ltb_spec i 0); [|lia].
  reflexivity.
Qed.

Lemma normalize_index_out (len : nat) (i : Z) :
  i < - Z.of_nat len \/ Z.of_nat len <= i ->
  normalize_index len i = Raise IndexError.
Proof.
  intros H. unfold normalize_index.
  destruct (Z.leb_spec 0 i); destruct (Z.ltb_spec i (Z.of_nat len));
    destruct (Z.leb_spec (- Z.of_nat len) i); destruct (Z.ltb_spec i 0);
    simpl; try reflexivity; lia.
Qed.

Lemma normalize_index_Ok (len : nat) (i : Z) (k : nat) :
  normalize_index len i = Ok k ->
  (k < len)%nat /\
  ((0 <= i /\ Z.of_nat k = i) \/ (i < 0 /\ Z.of_nat k = Z.of_nat len + i)).
Proof.
  unfold normalize_index.
  destruct (Z.leb_spec 0 i); destruct (Z.ltb_spec i (Z.of_nat len));
    destruct (Z.leb_spec (- Z.of_nat len) i); destruct (Z.ltb_spec i 0);
    simpl; intros E; inversion E; subst; lia.
Qed.

Lemma getitem_nonneg {A : Type} (l : list A) (i : Z) (x : A) :
  0 <= i -> l !! Z.to_nat i = Some x -> getitem l i = Ok x.
Proof.
  intros H0 Hx. unfold getitem.
  rewrite normalize_index_nonneg.
  - simpl. rewrite Hx. reflexivity.
  - apply lookup_lt_Some in Hx. lia.
Qed.

Lemma getitem_Ok {A : Type} (l : list A) (i : Z) (x : A) :
  getitem l i = Ok x ->
  exists k, normalize_index (length l) i = Ok k /\ l !! k = Some x.
Proof.
  unfold getitem. intros H. apply bind_Ok_inv in H as (k & Hk & H).
  exists k. split; [exact Hk|].
  destruct (l !! k); [congruence | discriminate].
Qed.

Lemma setitem_Ok {A : Type} (l : list A) (i : Z) (x : A) (l' : list A) :
  setitem l i x = Ok l' ->
  exists k, normalize_index (length l) i = Ok k /\ l' = <[k := x]> l.
Proof.
  unfold setitem. intros H. apply bind_Ok_inv in H as (k & Hk & H).
  exists k. split; [exact Hk | congruence].
Qed.

Lemma getitem_setitem {A : Type} (l : list A) (i : Z) (x y : A) :
  getitem l i = Ok y ->
  exists l', setitem l i x = Ok l' /\ getitem l' i = Ok x /\ length l' = length l.
Proof.
  intros H. apply getitem_Ok in H as (k & Hk & Hy).
  exists (<[k := x]> l). unfold setitem, getitem.
  rewrite length_insert, Hk. simpl.
  rewrite list_lookup_insert_eq by (eapply lookup_lt_Some; exact Hy).
  auto.
Qed.

(** ** Balances *)

Lemma get_balance_heap_set (h : heap) (p q : ref) (v : Player) :
  get_balance (heap_set h p v) q = if Nat.eqb q p then balance v else get_balance h q.
Proof. unfold get_balance, heap_set. destruct (Nat.eqb q p); reflexivity. Qed.

Lemma get_balance_increase (h : heap) (p q : ref) (a : Z) :
  get_balance (increase_balance h p a) q =
  if Nat.eqb q p then get_balance h p + a else get_balance h q.
Proof. unfold increase_balance. rewrite get_balance_heap_set. reflexivity. Qed.

Lemma get_balance_decrease (h : heap) (p q : ref) (a : Z) :
  get_balance (decrease_balance h p a) q =
  if Nat.eqb q p then get_balance h p - a else get_balance h q.
Proof. unfold decrease_balance. rewrite get_balance_heap_set. reflexivity. Qed.

Lemma behavior_increase (h : heap) (p q : ref) (a : Z) :
  behavior (increase_balance h p a q) = behavior (h q).
Proof.
  unfold increase_balance, heap_set.
  destruct (Nat.eqb_spec q p); [subst|]; reflexivity.
Qed.

Lemma behavior_decrease (h : heap) (p q : ref) (a : Z) :
  behavior (decrease_balance h p a q) = behavior (h q).
Proof.
  unfold decrease_balance, heap_set.
  destruct (Nat.eqb_spec q p); [subst|]; reflexivity.
Qed.

Lemma transfer_to (h : heap) (a b : ref) (amount : Z) :
  a <> b ->
  get_balance (transfer h a b amount) b =
  get_balance h b + Z.min (get_balance h a) amount.
Proof.
  intros Hab. unfold transfer.
  destruct (Nat.eqb_spec a b) as [E|_]; [contradiction|].
  rewrite get_balance_decrease.
  destruct (Nat.eqb_spec b a) as [E|_]; [congruence|].
  rewrite get_balance_increase, Nat.eqb_refl. reflexivity.
Qed.

Lemma transfer_from (h : heap) (a b : ref) (amount : Z) :
  a <> b ->
  get_balance (transfer h a b amount) a = get_balance h a - amount.
Proof.
  intros Hab. unfold transfer.
  destruct (Nat.eqb_spec a b) as [E|_]; [contradiction|].
  rewrite get_balance_decrease, Nat.eqb_refl.
  rewrite get_balance_increase.
  destruct (Nat.eqb_spec a b) as [E|_]; [contradiction|]. reflexivity.
Qed.

Lemma transfer_self (h : heap) (a : ref) (amount : Z) :
  transfer h a a amount = h.
Proof. unfold transfer. rewrite Nat.eqb_refl. reflexivity. Qed.

(** C1.  [transfer] between one and the same player object changes no
    balance; between two distinct players [a] and [b] it credits [b] with
    the minimum of [a]'s balance before the call and [amount], and debits
    [a] by the whole [amount], whatever the sign of the result. *)
Theorem transfer_spec (h : heap) (a b : ref) (amount : Z) :
  (a = b ->
   get_balance (transfer h a b amount) a = get_balance h a /\
   get_balance (transfer h a b amount) b = get_balance h b) /\
  (a <> b ->
   get_balance (transfer h a b amount) b =
     get_balance h b + Z.min (get_balance h a) amount /\
   get_balance (transfer h a b amount) a = get_balance h a - amount).
Proof.
  split.
  - intros ->. rewrite transfer_self. split; reflexivity.
  - intros Hab. split; [apply transfer_to | apply transfer_from]; exact Hab.
Qed.

Lemma transfer_spec_witness :
  get_balance (transfer report_heap 0%nat 1%nat 1000) 1%nat = 600 /\
  get_balance (transfer report_heap 0%nat 1%nat 1000) 0%nat = -700.
Proof.
  destruct (transfer_spec report_heap 0%nat 1%nat 1000) as [_ H].
  destruct H as [Hb Ha]; [discriminate|].
  rewrite Hb, Ha. split; reflexivity.
Defined.

(** C9.  When the payer's balance is negative before the call, a transfer
    of a non-negative amount to another player lowers the balance of the
    receiver: the receiver is credited the payer's negative balance. *)
Theorem transfer_from_negative_payer (h : heap) (a b : ref) (amount : Z) :
  a <> b -> 0 <= amount -> get_balance h a < 0 ->
  get_balance (transfer h a b amount) b = get_balance h b + get_balance h a /\
  get_balance (transfer h a b amount) b < get_balance h b.
Proof.
  intros Hab Hamount Hneg. rewrite transfer_to by exact Hab.
  rewrite Z.min_l by lia. lia.
Qed.

Lemma transfer_from_negative_payer_witness :
  get_balance (transfer (decrease_balance report_heap 0%nat 350) 0%nat 1%nat 80) 1%nat
  < get_balance (decrease_balance report_heap 0%nat 350) 1%nat.
Proof.
  apply (transfer_from_negative_payer (decrease_balance report_heap 0%nat 350)
           0%nat 1%nat 80).
  - discriminate.
  - lia.
  - vm_compute. reflexivity.
Defined.

(** ** Reading the board *)

Lemma property_at_negative_index_counterexample :
  property_at [new_Property 10 1; new_Property 20 2] (-1) = Ok (new_Property 20 2) /\
  ~ (forall (b : Board) (i : Z),
        ~ (0 <= i < Z.of_nat (length b)) -> property_at b i = Raise IndexError).
Proof.
  split; [reflexivity|].
  intros H.
  specialize (H [new_Property 10 1; new_Property 20 2] (-1)).
  simpl in H. discriminate H. lia.
Qed.

(** C3, amended.  [property_at] raises [IndexError] for the positions at or
    beyond the length of the board and for those below minus the length.  A
    position [i] with [0 <= i < length] yields the property at [i]; a
    negative position [i] with [-length <= i < 0] yields the property at
    [length + i], as Python subscripts do. *)
Theorem property_at_spec (b : Board) (i : Z) :
  (i < - Z.of_nat (length b) \/ Z.of_nat (length b) <= i ->
   property_at b i = Raise IndexError) /\
  (0 <= i < Z.of_nat (length b) ->
   exists pr, b !! Z.to_nat i = Some pr /\ property_at b i = Ok pr) /\
  (- Z.of_nat (length b) <= i < 0 ->
   exists pr, b !! Z.to_nat (Z.of_nat (length b) + i) = Some pr /\
              property_at b i = Ok pr).
Proof.
  unfold property_at, getitem. repeat split.
  - intros H. rewrite normalize_index_out by exact H. reflexivity.
  - intros H. rewrite normalize_index_nonneg by exact H. simpl.
    destruct (lookup_lt_is_Some_2 b (Z.to_nat i)) as [pr Hpr]; [lia|].
    exists pr. rewrite Hpr. auto.
  - intros H. rewrite normalize_index_neg by exact H. simpl.
    destruct (lookup_lt_is_Some_2 b (Z.to_nat (Z.of_nat (length b) + i)))
      as [pr Hpr]; [lia|].
    exists pr. rewrite Hpr. auto.
Qed.

Lemma property_at_spec_witness :
  property_at [new_Property 10 1; new_Property 20 2] 2 = Raise IndexError /\
  property_at [new_Property 10 1; new_Property 20 2] (-3) = Raise IndexError /\
  (exists pr, property_at [new_Property 10 1; new_Property 20 2] (-2) = Ok pr).
Proof.
  destruct (property_at_spec [new_Property 10 1; new_Property 20 2] 2) as [H2 _].
  destruct (property_at_spec [new_Property 10 1; new_Property 20 2] (-3)) as [H3 _].
  destruct (property_at_spec [new_Property 10 1; new_Property 20 2] (-2))
    as (_ & _ & Hn).
  split; [apply H2; simpl; lia|].
  split; [apply H3; simpl; lia|].
  destruct Hn as (pr & _ & Hpr); [simpl; lia|].
  exists pr. exact Hpr.
Defined.

(** ** Statistics without data *)

Lemma truediv_zero (a : Z) : truediv a 0 = Raise ZeroDivisionError.
Proof. reflexivity. Qed.

Lemma get_average_num_turns_no_data (r : GameRunner) :
  num_turns r = [] -> get_average_num_turns r = Raise ZeroDivisionError.
Proof. intros H. unfold get_average_num_turns. rewrite H. reflexivity. Qed.

Lemma get_win_percentage_per_behavior_no_data (r : GameRunner) :
  games_simulated r = 0 -> wins_per_behavior r <> [] ->
  get_win_percentage_per_behavior r = Raise ZeroDivisionError.
Proof.
  intros H0 Hd. unfold get_win_percentage_per_behavior. rewrite H0.
  destruct (wins_per_behavior r) as [|kv rest]; [contradiction|].
  reflexivity.
Qed.

Lemma zero_games_counterexample :
  get_average_num_turns (new_GameRunner report_players 300 80)
    = Raise ZeroDivisionError /\
  get_win_percentage_per_behavior (new_GameRunner report_players 300 80)
    = Raise ZeroDivisionError.
Proof. split; reflexivity. Qed.

(** C2, amended.  On a runner that has played no game the two statistics
    are not guarded: [get_average_num_turns] and
    [get_win_percentage_per_behavior] both raise [ZeroDivisionError], and so
    does [report] when asked for zero games. *)
Theorem zero_games_raise_ZeroDivisionError
    (ps : list ref) (max_sell max_rent : Z) (depth fuel : nat) :
  get_average_num_turns (new_GameRunner ps max_sell max_rent)
    = Raise ZeroDivisionError /\
  get_win_percentage_per_behavior (new_GameRunner ps max_sell max_rent)
    = Raise ZeroDivisionError /\
  report depth fuel max_sell max_rent [] = Raise ZeroDivisionError.
Proof.
  split; [|split].
  - apply get_average_num_turns_no_data. reflexivity.
  - apply get_win_percentage_per_behavior_no_data; [reflexivity | discriminate].
  - reflexivity.
Qed.

(** ** Moving *)

Lemma getitem_setitem_get {A : Type} (l l' : list A) (i : Z) (x : A) :
  setitem l i x = Ok l' -> getitem l' i = Ok x.
Proof.
  intros H. apply setitem_Ok in H as (k & Hk & ->).
  unfold getitem. rewrite length_insert, Hk. simpl.
  apply normalize_index_Ok in Hk as [Hlt _].
  rewrite list_lookup_insert_eq by exact Hlt. reflexivity.
Qed.

Lemma adjust_position_to_length_spec (g : Game) (player_id pos : Z) :
  board g <> [] ->
  getitem (player_position g) player_id = Ok pos ->
  let n := Z.of_nat (length (board g)) in
  exists pp,
    setitem (player_position g) player_id
            (if n <=? pos then pos mod n else pos) = Ok pp /\
    adjust_position_to_length g player_id =
      Ok (if n <=? pos then with_player_position g pp else g, n <=? pos).
Proof.
  intros Hb Hpos n. unfold adjust_position_to_length. fold n.
  rewrite Hpos. simpl.
  destruct (getitem_setitem (player_position g) player_id
              (if n <=? pos then pos mod n else pos) pos Hpos) as (pp & Hpp & _ & _).
  exists pp. split; [exact Hpp|].
  destruct (n <=? pos); [|reflexivity].
  assert (Hn : (n =? 0) = false).
  { apply Z.eqb_neq. subst n. destruct (board g); [contradiction | simpl; lia]. }
  rewrite Hn, Hpp. reflexivity.
Qed.

(** C5.  In the first part of a turn the die roll is added to the position
    of the current player.  If the sum reaches the length of the board, the
    position becomes the sum modulo the length and the player's balance
    grows by exactly 100; if it does not, the position is the sum and no
    balance changes.  Nothing else of the game changes. *)
Theorem turn_move_spec (h : heap) (g : Game) (die_roll : Z) (player : ref) (pos : Z) :
  board g <> [] ->
  getitem (players g) (current_player g) = Ok player ->
  getitem (player_position g) (current_player g) = Ok pos ->
  let n := Z.of_nat (length (board g)) in
  exists h' pp,
    turn_move die_roll (h, g) = Ok (h', with_player_position g pp, player) /\
    length pp = length (player_position g) /\
    (n <= pos + die_roll ->
       getitem pp (current_player g) = Ok ((pos + die_roll) mod n) /\
       h' = increase_balance h player 100 /\
       get_balance h' player = get_balance h player + 100) /\
    (pos + die_roll < n ->
       getitem pp (current_player g) = Ok (pos + die_roll) /\ h' = h).
Proof.
  intros Hb Hplayer Hpos n.
  destruct (getitem_setitem (player_position g) (current_player g)
              (pos + die_roll) pos Hpos) as (pp1 & Hset1 & Hget1 & Hlen1).
  destruct (adjust_position_to_length_spec (with_player_position g pp1)
              (current_player g) (pos + die_roll) Hb Hget1) as (pp2 & Hset2 & Hadj).
  simpl in Hset2, Hadj. fold n in Hset2, Hadj.
  unfold turn_move. simpl. rewrite Hplayer. simpl. rewrite Hpos. simpl.
  rewrite Hset1. simpl. rewrite Hadj. simpl.
  destruct (Z.leb_spec n (pos + die_roll)) as [Hwrap|Hstay].
  - exists (increase_balance h player 100), pp2. simpl.
    split; [reflexivity|]. split.
    { apply setitem_Ok in Hset2 as (k & _ & ->). rewrite length_insert. exact Hlen1. }
    split; [|lia]. intros _.
    split; [eapply getitem_setitem_get; exact Hset2|].
    split; [reflexivity|].
    rewrite get_balance_increase, Nat.eqb_refl. reflexivity.
  - exists h, pp1. simpl.
    split; [reflexivity|]. split; [exact Hlen1|].
    split; [lia|]. intros _. split; [exact Hget1 | reflexivity].
Qed.

Lemma turn_move_spec_witness :
  exists h' pp,
    turn_move 6 (report_heap,
                 with_player_position
                   (new_Game [new_Property 1 1; new_Property 2 2] report_players)
                   [1; 0; 0; 0])
    = Ok (h', with_player_position
                (new_Game [new_Property 1 1; new_Property 2 2] report_players) pp,
          0%nat) /\
    getitem pp 0 = Ok 1 /\ get_balance h' 0%nat = 400.
Proof.
  destruct (turn_move_spec report_heap
              (with_player_position
                 (new_Game [new_Property 1 1; new_Property 2 2] report_players)
                 [1; 0; 0; 0]) 6 0%nat 1)
    as (h' & pp & Hmove & _ & Hwrap & _).
  - discriminate.
  - reflexivity.
  - reflexivity.
  - exists h', pp. split; [exact Hmove|].
    destruct Hwrap as (Hpos & _ & Hbal); [simpl; lia|].
    split; [exact Hpos | exact Hbal].
Defined.

(** ** Buying *)

Lemma property_at_Ok (b : Board) (pos : Z) (property : Property) :
  property_at b pos = Ok property ->
  exists k, normalize_index (length b) pos = Ok k /\ b !! k = Some property.
Proof. apply getitem_Ok. Qed.

(** C6.  On a property without owner: when the player's balance is at least
    the price and the player's strategy decides to buy, the player becomes
    the owner of that property and pays exactly the price; otherwise neither
    the board nor any balance changes.  The cell keeps its prices, no other
    cell of the board is touched and no other balance changes. *)
Theorem turn_land_unowned_spec (h : heap) (g : Game) (coin : bool)
    (player : ref) (pos : Z) (property : Property) :
  getitem (player_position g) (current_player g) = Ok pos ->
  property_at (board g) pos = Ok property ->
  owner property = None ->
  ((sell_cost property <= get_balance h player /\
    decide_to_buy h player property coin = true) ->
   exists k,
     normalize_index (length (board g)) pos = Ok k /\
     turn_land coin player (h, g) =
       Ok (decrease_balance h player (sell_cost property),
           with_board g (<[k := set_owner property (Some player)]> (board g))) /\
     (<[k := set_owner property (Some player)]> (board g)) !! k
       = Some (set_owner property (Some player)) /\
     get_balance (decrease_balance h player (sell_cost property)) player
       = get_balance h player - sell_cost property /\
     (exists h' g' bought,
        turn_land coin player (h, g) = Ok (h', g') /\
        property_at (board g') pos = Ok bought /\
        owner bought = Some player /\
        sell_cost bought = sell_cost property /\
        rent_cost bought = rent_cost property /\
        (forall j : nat, j <> k -> board g' !! j = board g !! j) /\
        get_balance h' player = get_balance h player - sell_cost property /\
        (forall q, q <> player -> get_balance h' q = get_balance h q))) /\
  (~ (sell_cost property <= get_balance h player /\
      decide_to_buy h player property coin = true) ->
   turn_land coin player (h, g) = Ok (h, g) /\
   exists still,
     property_at (board g) pos = Ok still /\ owner still = None).
Proof.
  intros Hpos Hprop Hnone.
  unfold turn_land, try_to_buy. simpl. rewrite Hpos. simpl. rewrite Hprop. simpl.
  rewrite Hnone.
  split.
  - intros [Hbal Hbuy].
    apply property_at_Ok in Hprop as (k & Hk & Hlook).
    assert (Hlt : (k < length (board g))%nat) by (eapply lookup_lt_Some; exact Hlook).
    exists k. split; [exact Hk|].
    destruct (Z.leb_spec (sell_cost property) (get_balance h player)); [|lia].
    rewrite Hbuy. simpl. unfold setitem. rewrite Hk. simpl.
    split; [reflexivity|]. split; [apply list_lookup_insert_eq; exact Hlt|].
    split; [rewrite get_balance_decrease, Nat.eqb_refl; reflexivity|].
    exists (decrease_balance h player (sell_cost property)),
           (with_board g (<[k := set_owner property (Some player)]> (board g))),
           (set_owner property (Some player)).
    split; [reflexivity|]. split.
    { unfold property_at, getitem. simpl. rewrite length_insert, Hk. simpl.
      rewrite list_lookup_insert_eq by exact Hlt. reflexivity. }
    split; [reflexivity|]. split; [reflexivity|]. split; [reflexivity|]. split.
    { intros j Hj. simpl. apply list_lookup_insert_ne. congruence. }
    split; [rewrite get_balance_decrease, Nat.eqb_refl; reflexivity|].
    intros q Hq. rewrite get_balance_decrease.
    destruct (Nat.eqb_spec q player); [contradiction | reflexivity].
  - intros Hno. split.
    + destruct (Z.leb_spec (sell_cost property) (get_balance h player)) as [Hle|Hlt];
        [|reflexivity].
      destruct (decide_to_buy h player property coin); [|reflexivity].
      exfalso. apply Hno. split; [exact Hle | reflexivity].
    + exists property. split; [reflexivity | exact Hnone].
Qed.

Lemma turn_land_unowned_spec_witness :
  exists h' g' bought,
    turn_land false 0%nat
      (report_heap, new_Game [new_Property 120 7; new_Property 2 2] report_players)
    = Ok (h', g') /\
    property_at (board g') 0 = Ok bought /\
    owner bought = Some 0%nat /\
    get_balance h' 0%nat = 180.
Proof.
  destruct (turn_land_unowned_spec report_heap
              (new_Game [new_Property 120 7; new_Property 2 2] report_players)
              false 0%nat 0 (new_Property 120 7)) as [Hbuy _].
  - reflexivity.
  - reflexivity.
  - reflexivity.
  - destruct Hbuy
      as (k & _ & _ & _ & _ & h' & g' & bought & Hland & Hat & Hown & _ & _ & _ & Hbal & _).
    + split; [vm_compute; discriminate | reflexivity].
    + exists h', g', bought. split; [exact Hland|]. split; [exact Hat|].
      split; [exact Hown | exact Hbal].
Defined.

(** ** The winner *)

Lemma active_ids_filter (active : list bool) (ids : list nat) :
  Forall (fun i => (i < length active)%nat) ids ->
  active_ids active ids = Ok (filter (fun i => active !! i = Some true) ids).
Proof.
  induction ids as [|i ids IH]; intros Hall; [reflexivity|].
  inversion Hall as [|? ? Hi Hall']; subst. simpl.
  destruct (lookup_lt_is_Some_2 active i Hi) as [a Ha].
  unfold getitem at 1. rewrite normalize_index_nonneg by lia.
  simpl. rewrite Nat2Z.id, Ha. simpl.
  rewrite IH by exact Hall'. simpl.
  destruct a.
  - rewrite filter_cons_True by exact Ha. reflexivity.
  - rewrite filter_cons_False by congruence. reflexivity.
Qed.

Lemma active_ids_game (g : Game) :
  length (active_player g) = length (players g) ->
  active_ids (active_player g) (seq 0 (length (players g))) = Ok (active_indices g).
Proof.
  intros Hlen. apply active_ids_filter.
  apply Forall_forall. intros i Hi. apply in_seq in Hi. lia.
Qed.

Lemma elem_of_active_indices (g : Game) (i : nat) :
  length (active_player g) = length (players g) ->
  i ∈ active_indices g <-> active_player g !! i = Some true.
Proof.
  intros Hlen. unfold active_indices. rewrite list_elem_of_filter, elem_of_seq.
  split; [tauto|]. intros H. split; [exact H|].
  apply lookup_lt_Some in H. lia.
Qed.

Lemma NoDup_active_indices (g : Game) : NoDup (active_indices g).
Proof. unfold active_indices. apply list.NoDup_filter, NoDup_seq. Qed.

Lemma has_winner_wf (g : Game) :
  length (active_player g) = length (players g) ->
  exists w, has_winner g = Ok w /\
            (w = None <-> forall i, active_indices g <> [i]).
Proof.
  intros Hlen. unfold has_winner. rewrite active_ids_game by exact Hlen. simpl.
  destruct (active_indices g) as [|i [|j rest]] eqn:E.
  - exists None. split; [reflexivity|]. split; [discriminate | reflexivity].
  - assert (Hi : i ∈ active_indices g) by (rewrite E; apply list_elem_of_here).
    apply elem_of_active_indices in Hi; [|exact Hlen].
    apply lookup_lt_Some in Hi. rewrite Hlen in Hi.
    destruct (lookup_lt_is_Some_2 (players g) i Hi) as [p Hp].
    rewrite (getitem_nonneg (players g) (Z.of_nat i) p);
      [|lia|rewrite Nat2Z.id; exact Hp].
    exists (Some p). split; [reflexivity|].
    split; [discriminate|]. intros H. exfalso. apply (H i). reflexivity.
  - exists None. split; [reflexivity|]. split; [discriminate | reflexivity].
Qed.

(** If the game has not stopped and some player is active, two distinct
    players are. *)
Lemma two_active (g : Game) :
  length (active_player g) = length (players g) ->
  (exists i : nat, active_player g !! i = Some true) ->
  stop_condtion g = Ok false ->
  current_turn g < 1000 /\
  exists i j : nat, i <> j /\ active_player g !! i = Some true /\
                    active_player g !! j = Some true.
Proof.
  intros Hlen [i Hi] Hstop. unfold stop_condtion in Hstop.
  destruct (has_winner_wf g Hlen) as (w & Hw & Hnone).
  rewrite Hw in Hstop. simpl in Hstop.
  destruct w as [p|]; [discriminate|].
  split; [injection Hstop as Hstop; apply Z.leb_gt in Hstop; exact Hstop|].
  assert (Hne : forall k, active_indices g <> [k]) by (apply Hnone; reflexivity).
  apply (elem_of_active_indices g i Hlen) in Hi.
  pose proof (NoDup_active_indices g) as Hnd.
  destruct (active_indices g) as [|a [|b rest]] eqn:E.
  - inversion Hi.
  - exfalso. apply (Hne a). reflexivity.
  - exists a, b. split.
    + intros ->. inversion Hnd as [|? ? Hnot _]; subst. apply Hnot.
      apply list_elem_of_here.
    + split; apply (elem_of_active_indices g _ Hlen); rewrite E.
      * apply list_elem_of_here.
      * apply list_elem_of_further, list_elem_of_here.
Qed.

Lemma stop_condtion_wf (g : Game) :
  length (active_player g) = length (players g) ->
  exists b, stop_condtion g = Ok b.
Proof.
  intros Hlen. unfold stop_condtion.
  destruct (has_winner_wf g Hlen) as (w & Hw & _). rewrite Hw. simpl.
  destruct w; eauto.
Qed.

(** ** The next player *)

Lemma next_player_turn_Ok (fuel : nat) (g g' : Game) :
  next_player_turn fuel g = Ok g' ->
  exists cp,
    g' = with_current_player g cp /\
    0 <= cp < Z.of_nat (length (players g)) /\
    getitem (active_player g) cp = Ok true.
Proof.
  revert g. induction fuel as [|fuel IH]; intros g H; [discriminate|].
  simpl in H.
  destruct (Z.eqb_spec (Z.of_nat (length (players g))) 0) as [|Hn]; [discriminate|].
  apply bind_Ok_inv in H as (a & Ha & H). simpl in Ha.
  assert (Hcp : 0 <= (current_player g + 1) mod Z.of_nat (length (players g))
                < Z.of_nat (length (players g))) by (apply Z.mod_pos_bound; lia).
  destruct a; simpl in H.
  - injection H as <-. eexists. split; [reflexivity|]. split; [exact Hcp | exact Ha].
  - apply IH in H as (cp & -> & Hrange & Hact). exists cp.
    split; [reflexivity|]. split; [exact Hrange | exact Hact].
Qed.

Lemma next_player_turn_steps (fuel : nat) (g : Game) (d : nat) :
  length (active_player g) = length (players g) ->
  (1 <= d <= fuel)%nat ->
  active_player g
    !! Z.to_nat ((current_player g + Z.of_nat d) mod Z.of_nat (length (players g)))
    = Some true ->
  exists g', next_player_turn fuel g = Ok g'.
Proof.
  revert g d. induction fuel as [|fuel IH]; intros g d Hlen Hd Hact; [lia|].
  simpl.
  assert (Hpos : (0 < length (players g))%nat).
  { apply lookup_lt_Some in Hact. lia. }
  destruct (Z.eqb_spec (Z.of_nat (length (players g))) 0) as [|Hn]; [lia|].
  set (n := Z.of_nat (length (players g))) in *.
  assert (Hcp : 0 <= (current_player g + 1) mod n < n) by (apply Z.mod_pos_bound; lia).
  destruct (lookup_lt_is_Some_2 (active_player g)
              (Z.to_nat ((current_player g + 1) mod n))) as [a Ha]; [lia|].
  rewrite (getitem_nonneg _ _ a); [|lia|exact Ha].
  simpl. destruct a; simpl; [eauto|].
  destruct (Nat.eq_dec d 1%nat) as [->|Hd1].
  { change (Z.of_nat 1%nat) with 1 in Hact. congruence. }
  apply (IH _ (d - 1)%nat).
  - exact Hlen.
  - lia.
  - simpl. fold n.
    replace ((current_player g + 1) mod n + Z.of_nat (d - 1))
      with ((current_player g + 1) mod n + (Z.of_nat d - 1)) by lia.
    rewrite Zplus_mod_idemp_l.
    replace (current_player g + 1 + (Z.of_nat d - 1))
      with (current_player g + Z.of_nat d) by lia.
    exact Hact.
Qed.

Lemma next_player_turn_terminates (fuel : nat) (g : Game) :
  length (active_player g) = length (players g) ->
  (exists i : nat, active_player g !! i = Some true) ->
  (length (players g) <= fuel)%nat ->
  exists g', next_player_turn fuel g = Ok g'.
Proof.
  intros Hlen [i Hi] Hfuel.
  assert (Hlt : (i < length (players g))%nat).
  { apply lookup_lt_Some in Hi. lia. }
  set (n := Z.of_nat (length (players g))).
  assert (Hm : 0 <= (Z.of_nat i - current_player g - 1) mod n < n)
    by (apply Z.mod_pos_bound; lia).
  apply (next_player_turn_steps fuel g
           (S (Z.to_nat ((Z.of_nat i - current_player g - 1) mod n)))).
  - exact Hlen.
  - lia.
  - fold n. rewrite Nat2Z.inj_succ, Z2Nat.id by lia.
    replace (current_player g + Z.succ ((Z.of_nat i - current_player g - 1) mod n))
      with (current_player g + 1 + (Z.of_nat i - current_player g - 1) mod n) by lia.
    rewrite Zplus_mod_idemp_r.
    replace (current_player g + 1 + (Z.of_nat i - current_player g - 1))
      with (Z.of_nat i) by lia.
    rewrite Z.mod_small by lia. rewrite Nat2Z.id. exact Hi.
Qed.

(** ** A turn on a well-formed game *)

Lemma mapM_map {A B : Type} (f : A -> result B) (f' : A -> B) (l : list A) :
  (forall x, f x = Ok (f' x)) -> mapM f l = Ok (map f' l).
Proof.
  intros Hf. induction l as [|x l IH]; [reflexivity|].
  simpl. rewrite Hf. simpl. rewrite IH. reflexivity.
Qed.

Lemma setitem_nonneg {A : Type} (l : list A) (i : Z) (x : A) :
  0 <= i < Z.of_nat (length l) -> setitem l i x = Ok (<[Z.to_nat i := x]> l).
Proof.
  intros H. unfold setitem. rewrite normalize_index_nonneg by exact H. reflexivity.
Qed.

Lemma turn_move_wf (h : heap) (g : Game) (die_roll : Z) :
  wf_game g ->
  let n := Z.of_nat (length (board g)) in
  let k := Z.to_nat (current_player g) in
  exists player pos,
    players g !! k = Some player /\
    player_position g !! k = Some pos /\
    turn_move die_roll (h, g) =
      Ok (if n <=? pos + die_roll then increase_balance h player 100 else h,
          with_player_position g
            (<[k := if n <=? pos + die_roll then (pos + die_roll) mod n
                    else pos + die_roll]> (player_position g)),
          player).
Proof.
  intros [Hb Hpp Hact Hcp Hon _] n k.
  destruct (lookup_lt_is_Some_2 (players g) k) as [player Hplayer]; [lia|].
  destruct (lookup_lt_is_Some_2 (player_position g) k) as [pos Hpos]; [lia|].
  exists player, pos. split; [exact Hplayer|]. split; [exact Hpos|].
  assert (Hn : (n =? 0) = false).
  { apply Z.eqb_neq. subst n. destruct (board g); [contradiction | simpl; lia]. }
  unfold turn_move. simpl.
  rewrite (getitem_nonneg _ _ player) by (first [lia | exact Hplayer]). simpl.
  rewrite (getitem_nonneg _ _ pos) by (first [lia | exact Hpos]). simpl.
  rewrite setitem_nonneg by lia. simpl. fold k.
  unfold adjust_position_to_length. simpl. fold n.
  rewrite (getitem_nonneg _ _ (pos + die_roll));
    [|lia|fold k; apply list_lookup_insert_eq; lia].
  simpl. destruct (n <=? pos + die_roll).
  - rewrite Hn. rewrite setitem_nonneg by (rewrite length_insert; lia).
    simpl. fold k. rewrite list_insert_insert_eq. reflexivity.
  - reflexivity.
Qed.

Lemma apply_defeat_to_nonneg (g : Game) (player_id : Z) (p : ref) :
  0 <= player_id < Z.of_nat (length (active_player g)) ->
  getitem (players g) player_id = Ok p ->
  apply_defeat_to g player_id =
    Ok (with_board
          (with_active_player g (<[Z.to_nat player_id := false]> (active_player g)))
          (map (fun pr => if owner_is pr p then set_owner pr None else pr) (board g))).
Proof.
  intros Hid Hp. unfold apply_defeat_to.
  rewrite setitem_nonneg by exact Hid. simpl.
  rewrite (mapM_map _ (fun pr => if owner_is pr p then set_owner pr None else pr)).
  - reflexivity.
  - intros pr. rewrite Hp. reflexivity.
Qed.

(** What the second part of a turn can change in a game that has one flag
    per player and whose current player stands on the board. *)
Lemma turn_land_wf (h : heap) (g : Game) (coin : bool) (player : ref) :
  wf_game g ->
  players g !! Z.to_nat (current_player g) = Some player ->
  exists h' g',
    turn_land coin player (h, g) = Ok (h', g') /\
    players g' = players g /\
    player_position g' = player_position g /\
    current_player g' = current_player g /\
    current_turn g' = current_turn g /\
    length (board g') = length (board g) /\
    (active_player g' = active_player g \/
     active_player g' = <[Z.to_nat (current_player g) := false]> (active_player g)).
Proof.
  intros [Hb Hpp Hact Hcp Hon _] Hplayer.
  destruct (lookup_lt_is_Some_2 (player_position g) (Z.to_nat (current_player g)))
    as [pos Hpos]; [lia|].
  assert (Hrange : 0 <= pos < Z.of_nat (length (board g))).
  { eapply Forall_lookup_1 in Hon; [exact Hon | exact Hpos]. }
  destruct (lookup_lt_is_Some_2 (board g) (Z.to_nat pos)) as [property Hprop]; [lia|].
  unfold turn_land, property_at. simpl.
  rewrite (getitem_nonneg _ _ pos) by (first [lia | exact Hpos]). simpl.
  rewrite (getitem_nonneg _ _ property) by (first [lia | exact Hprop]). simpl.
  destruct (owner property) as [o|].
  - unfold pay_rent. simpl.
    destruct (get_balance (transfer h player o (rent_cost property)) player <? 0).
    + rewrite (apply_defeat_to_nonneg g (current_player g) player);
        [|lia|apply getitem_nonneg; [lia | exact Hplayer]].
      simpl. eexists _, _. split; [reflexivity|]. simpl.
      rewrite length_map. auto 10.
    + eexists _, _. split; [reflexivity|]. auto 10.
  - unfold try_to_buy. simpl.
    destruct ((sell_cost property <=? get_balance h player)
              && decide_to_buy h player property coin).
    + rewrite setitem_nonneg by lia. simpl.
      eexists _, _. split; [reflexivity|]. simpl.
      rewrite length_insert. auto 10.
    + eexists _, _. split; [reflexivity|]. auto 10.
Qed.

Lemma turn_wf (depth : nat) (die_roll : Z) (coin : bool) (h : heap) (g : Game) :
  wf_game g ->
  stop_condtion g = Ok false ->
  0 <= die_roll ->
  (length (players g) <= depth)%nat ->
  exists h' g',
    turn depth die_roll coin (h, g) = Ok (h', g') /\
    current_turn g' = current_turn g + 1 /\
    players g' = players g /\
    wf_game g'.
Proof.
  intros Hwf Hstop Hdie Hdepth.
  destruct (two_active g (wf_active g Hwf) (wf_some_active g Hwf) Hstop)
    as (_ & i & j & Hij & Hi & Hj).
  destruct (turn_move_wf h g die_roll Hwf) as (player & pos & Hplayer & Hpos & Hmove).
  simpl in Hmove.
  set (n := Z.of_nat (length (board g))) in *.
  set (k := Z.to_nat (current_player g)) in *.
  set (pos' := if n <=? pos + die_roll then (pos + die_roll) mod n else pos + die_roll)
    in *.
  set (g1 := with_player_position g (<[k := pos']> (player_position g))) in *.
  assert (Hn : 0 < n).
  { subst n. destruct (board g) eqn:E; [destruct (wf_board g Hwf E) | simpl; lia]. }
  assert (Hpos' : 0 <= pos' < n).
  { pose proof (wf_on_board g Hwf) as Hon.
    eapply Forall_lookup_1 in Hon; [|exact Hpos]. simpl in Hon. fold n in Hon.
    subst pos'. destruct (Z.leb_spec n (pos + die_roll)).
    - apply Z.mod_pos_bound. lia.
    - lia. }
  assert (Hwf1 : wf_game g1).
  { destruct Hwf as [Hb Hpp Hact Hcp Hon Hsome]. subst g1.
    constructor; simpl; try assumption.
    - rewrite length_insert. exact Hpp.
    - apply Forall_insert; [exact Hon | exact Hpos']. }
  destruct (turn_land_wf (if n <=? pos + die_roll then increase_balance h player 100 else h)
              g1 coin player Hwf1 Hplayer)
    as (h2 & g2 & Hland & Hps & Hpp2 & Hcp2 & Hturn2 & Hlen2 & Hact2).
  assert (Hlenact : length (active_player g2) = length (players g2)).
  { rewrite Hps. destruct Hact2 as [->| ->]; [|rewrite length_insert];
      exact (wf_active g1 Hwf1). }
  assert (Hsome2 : exists a : nat, active_player g2 !! a = Some true).
  { destruct Hact2 as [->| ->]; [exists i; exact Hi|]. simpl. fold k.
    destruct (Nat.eq_dec i k) as [Hik|Hik].
    - exists j. rewrite list_lookup_insert_ne by congruence. exact Hj.
    - exists i. rewrite list_lookup_insert_ne by congruence. exact Hi. }
  destruct (next_player_turn_terminates depth
              (with_current_turn g2 (current_turn g2 + 1)))
    as [g3 Hnext]; simpl; [exact Hlenact | exact Hsome2 | rewrite Hps; exact Hdepth |].
  exists h2, g3. unfold turn. rewrite Hmove. simpl. rewrite Hland. simpl.
  unfold turn_end. simpl. rewrite Hnext. simpl.
  split; [reflexivity|].
  apply next_player_turn_Ok in Hnext as (cp & -> & Hcprange & _). simpl in *.
  split; [rewrite Hturn2; reflexivity|]. split; [exact Hps|].
  destruct Hwf1 as [Hb1 Hpp1 Hact1 Hcp1 Hon1 _]. simpl in *.
  constructor; simpl.
  - intros E. rewrite E in Hlen2. simpl in Hlen2. fold n in Hn. lia.
  - rewrite Hpp2, Hps. exact Hpp1.
  - exact Hlenact.
  - exact Hcprange.
  - rewrite Hpp2, Hlen2. exact Hon1.
  - exact Hsome2.
Qed.

(** ** The loop of [play] *)

Lemma play_stopped (depth fuel : nat) (rolls : nat -> Z * bool) (s : heap * Game) :
  stop_condtion (snd s) = Ok true -> play depth fuel rolls s = Ok s.
Proof. intros H. destruct fuel; simpl; rewrite H; reflexivity. Qed.

Lemma play_running (depth fuel : nat) (rolls : nat -> Z * bool) (s : heap * Game) :
  stop_condtion (snd s) = Ok false ->
  play depth (S fuel) rolls s =
    bind (turn depth (fst (rolls O)) (snd (rolls O)) s)
         (play depth fuel (fun k => rolls (S k))).
Proof. intros H. simpl. rewrite H. reflexivity. Qed.

Lemma play_stops (depth fuel : nat) :
  forall (rolls : nat -> Z * bool) (h : heap) (g : Game),
    wf_game g ->
    (forall k, 0 <= fst (rolls k)) ->
    (length (players g) <= depth)%nat ->
    (Z.to_nat (1000 - current_turn g) <= fuel)%nat ->
    exists h' g',
      play depth fuel rolls (h, g) = Ok (h', g') /\
      stop_condtion g' = Ok true /\
      current_turn g <= current_turn g' <= Z.max 1000 (current_turn g).
Proof.
  induction fuel as [|fuel IH]; intros rolls h g Hwf Hrolls Hdepth Hfuel;
    destruct (stop_condtion_wf g (wf_active g Hwf)) as [[|] Hstop].
  - exists h, g. rewrite play_stopped by exact Hstop. split; [reflexivity|].
    split; [exact Hstop | lia].
  - destruct (two_active g (wf_active g Hwf) (wf_some_active g Hwf) Hstop) as [Hlt _].
    lia.
  - exists h, g. rewrite play_stopped by exact Hstop. split; [reflexivity|].
    split; [exact Hstop | lia].
  - destruct (two_active g (wf_active g Hwf) (wf_some_active g Hwf) Hstop) as [Hlt _].
    destruct (turn_wf depth (fst (rolls O)) (snd (rolls O)) h g Hwf Hstop
                (Hrolls O) Hdepth) as (h1 & g1 & Hturn & Hturn1 & Hps & Hwf1).
    destruct (IH (fun k => rolls (S k)) h1 g1 Hwf1) as (h' & g' & Hplay & Hstop' & Hb).
    + intros k. apply Hrolls.
    + rewrite Hps. exact Hdepth.
    + lia.
    + exists h', g'. rewrite play_running by exact Hstop.
      rewrite Hturn. simpl. split; [exact Hplay|]. split; [exact Hstop' | lia].
Qed.

(** C4.  On a game with a board that is not empty and with an active
    player, [play] returns.  It plays no turn when a winner exists or the
    counter has reached 1000; when there is no winner and the counter is
    below 1000 it plays one turn, which adds exactly one to the counter, and
    goes on.  So it ends in a state with a winner or with the counter at
    1000 or more, after no more turns than it takes the counter to reach
    1000.  The search for the next player returns too, with an active player
    as current player and nothing else changed. *)
Theorem play_terminates (depth fuel : nat) (rolls : nat -> Z * bool)
    (h : heap) (g : Game) :
  wf_game g ->
  (forall k, 1 <= fst (rolls k) <= 6) ->
  (length (players g) <= depth)%nat ->
  (Z.to_nat (1000 - current_turn g) <= fuel)%nat ->
  (exists h' g',
     play depth fuel rolls (h, g) = Ok (h', g') /\
     stop_condtion g' = Ok true /\
     current_turn g <= current_turn g' <= Z.max 1000 (current_turn g) /\
     ((exists p, has_winner g' = Ok (Some p)) \/
      (has_winner g' = Ok None /\ 1000 <= current_turn g'))) /\
  (stop_condtion g = Ok true -> play depth fuel rolls (h, g) = Ok (h, g)) /\
  (stop_condtion g = Ok false ->
   exists h1 g1,
     turn depth (fst (rolls O)) (snd (rolls O)) (h, g) = Ok (h1, g1) /\
     current_turn g1 = current_turn g + 1 /\
     play depth (S fuel) rolls (h, g) =
       play depth fuel (fun k => rolls (S k)) (h1, g1)) /\
  (exists g1, next_player_turn depth g = Ok g1) /\
  (forall p, has_winner g = Ok (Some p) ->
             play depth fuel rolls (h, g) = Ok (h, g)) /\
  (1000 <= current_turn g -> play depth fuel rolls (h, g) = Ok (h, g)) /\
  (has_winner g = Ok None -> current_turn g < 1000 ->
   exists h1 g1,
     turn depth (fst (rolls O)) (snd (rolls O)) (h, g) = Ok (h1, g1) /\
     current_turn g1 = current_turn g + 1 /\
     play depth (S fuel) rolls (h, g) =
       play depth fuel (fun k => rolls (S k)) (h1, g1)) /\
  (exists (g1 : Game) (cp : Z),
     next_player_turn depth g = Ok g1 /\
     g1 = with_current_player g cp /\
     0 <= cp < Z.of_nat (length (players g)) /\
     active_player g !! Z.to_nat cp = Some true).
Proof.
  intros Hwf Hrolls Hdepth Hfuel.
  assert (Hstep : stop_condtion g = Ok false ->
                  exists h1 g1,
                    turn depth (fst (rolls O)) (snd (rolls O)) (h, g) = Ok (h1, g1) /\
                    current_turn g1 = current_turn g + 1 /\
                    play depth (S fuel) rolls (h, g) =
                      play depth fuel (fun k => rolls (S k)) (h1, g1)).
  { intros Hstop.
    destruct (turn_wf depth (fst (rolls O)) (snd (rolls O)) h g Hwf Hstop)
      as (h1 & g1 & Hturn & Hturn1 & _ & _).
    - specialize (Hrolls O). lia.
    - exact Hdepth.
    - exists h1, g1. split; [exact Hturn|]. split; [exact Hturn1|].
      rewrite play_running by exact Hstop. rewrite Hturn. reflexivity. }
  assert (Hnext : exists g1, next_player_turn depth g = Ok g1).
  { apply next_player_turn_terminates.
    - exact (wf_active g Hwf).
    - exact (wf_some_active g Hwf).
    - exact Hdepth. }
  split; [|split; [|split; [|split; [|split; [|split; [|split]]]]]].
  - destruct (play_stops depth fuel rolls h g Hwf) as (h' & g' & Hplay & Hstop & Hb);
      try assumption.
    { intros k. specialize (Hrolls k). lia. }
    exists h', g'. split; [exact Hplay|]. split; [exact Hstop|]. split; [exact Hb|].
    unfold stop_condtion in Hstop. apply bind_Ok_inv in Hstop as (w & Hw & Hstop).
    destruct w as [p|].
    + left. exists p. exact Hw.
    + right. split; [exact Hw|]. injection Hstop as Hstop.
      apply Z.leb_le. exact Hstop.
  - intros Hstop. apply play_stopped. exact Hstop.
  - exact Hstep.
  - exact Hnext.
  - intros p Hw. apply play_stopped. simpl. unfold stop_condtion.
    rewrite Hw. reflexivity.
  - intros Hturn. apply play_stopped. simpl. unfold stop_condtion.
    destruct (has_winner_wf g (wf_active g Hwf)) as (w & Hw & _). rewrite Hw. simpl.
    destruct w; [reflexivity|].
    destruct (Z.leb_spec 1000 (current_turn g)); [reflexivity | lia].
  - intros Hw Hturn. apply Hstep. unfold stop_condtion. rewrite Hw. simpl.
    destruct (Z.leb_spec 1000 (current_turn g)); [lia | reflexivity].
  - destruct Hnext as [g1 Hg1]. pose proof Hg1 as Hg1'.
    apply next_player_turn_Ok in Hg1' as (cp & -> & Hrange & Hact).
    exists (with_current_player g cp), cp. split; [exact Hg1|].
    split; [reflexivity|]. split; [exact Hrange|].
    apply getitem_Ok in Hact as (k & Hk & Hlook).
    rewrite normalize_index_nonneg in Hk
      by (rewrite (wf_active g Hwf); exact Hrange).
    injection Hk as <-. exact Hlook.
Qed.

Lemma new_Game_wf (b : Board) (ps : list ref) :
  b <> [] -> ps <> [] -> wf_game (new_Game b ps).
Proof.
  intros Hb Hps. constructor; simpl.
  - exact Hb.
  - apply length_map.
  - apply length_map.
  - destruct ps; [contradiction | simpl; lia].
  - apply Forall_forall. intros pos Hin. apply in_map_iff in Hin as (p & <- & _).
    destruct b; [contradiction | simpl; lia].
  - destruct ps as [|p ps]; [contradiction|]. exists 0%nat. reflexivity.
Qed.

Lemma play_terminates_witness :
  exists h' g',
    play 4 999 (fun _ => (1, false))
         (report_heap, new_Game [new_Property 500 1] report_players) = Ok (h', g') /\
    stop_condtion g' = Ok true.
Proof.
  destruct (play_terminates 4 999 (fun _ => (1, false)) report_heap
              (new_Game [new_Property 500 1] report_players))
    as [(h' & g' & Hplay & Hstop & _ & _) _].
  - apply new_Game_wf; discriminate.
  - intros k. simpl. lia.
  - simpl. lia.
  - simpl. lia.
  - exists h', g'. split; [exact Hplay | exact Hstop].
Defined.


(** ** Ownership *)

Lemma getitem_nonneg_inv {A : Type} (l : list A) (i : Z) (x : A) :
  0 <= i -> getitem l i = Ok x -> l !! Z.to_nat i = Some x.
Proof.
  intros H0 H. apply getitem_Ok in H as (k & Hk & Hx).
  apply normalize_index_Ok in Hk as [_ [[_ Hk]|[Hneg _]]]; [|lia].
  rewrite <- Hk, Nat2Z.id. exact Hx.
Qed.

Lemma adjust_position_to_length_Ok (g g' : Game) (player_id : Z) (b : bool) :
  adjust_position_to_length g player_id = Ok (g', b) ->
  exists pp, g' = with_player_position g pp.
Proof.
  unfold adjust_position_to_length. intros H.
  apply bind_Ok_inv in H as (pos & _ & H).
  destruct (Z.of_nat (length (board g)) <=? pos).
  - destruct (Z.of_nat (length (board g)) =? 0); [discriminate|].
    apply bind_Ok_inv in H as (pp & _ & H). injection H as <- _. eauto.
  - injection H as <- _. exists (player_position g). destruct g; reflexivity.
Qed.

Lemma turn_move_Ok (die_roll : Z) (h h' : heap) (g g' : Game) (player : ref) :
  turn_move die_roll (h, g) = Ok (h', g', player) ->
  getitem (players g) (current_player g) = Ok player /\
  exists pp, g' = with_player_position g pp.
Proof.
  unfold turn_move. simpl. intros H.
  apply bind_Ok_inv in H as (p & Hp & H).
  apply bind_Ok_inv in H as (pos & _ & H).
  apply bind_Ok_inv in H as (pp & _ & H).
  apply bind_Ok_inv in H as ([g1 b] & Hadj & H).
  simpl in H. injection H as _ <- <-.
  split; [exact Hp|].
  apply adjust_position_to_length_Ok in Hadj as (pp' & ->). simpl. eauto.
Qed.

Lemma turn_land_cases (h h' : heap) (g g' : Game) (coin : bool) (player : ref) :
  0 <= current_player g < Z.of_nat (length (active_player g)) ->
  getitem (players g) (current_player g) = Ok player ->
  turn_land coin player (h, g) = Ok (h', g') ->
  g' = g \/
  (exists k property,
      board g !! k = Some property /\
      g' = with_board g (<[k := set_owner property (Some player)]> (board g))) \/
  g' = with_board
         (with_active_player g
            (<[Z.to_nat (current_player g) := false]> (active_player g)))
         (map (fun pr => if owner_is pr player then set_owner pr None else pr)
              (board g)).
Proof.
  intros Hcp Hplayer. unfold turn_land. simpl. intros H.
  apply bind_Ok_inv in H as (pos & _ & H).
  apply bind_Ok_inv in H as (property & Hprop & H).
  destruct (owner property) as [o|].
  - unfold pay_rent in H. simpl in H.
    destruct (get_balance (transfer h player o (rent_cost property)) player <? 0).
    + rewrite (apply_defeat_to_nonneg g (current_player g) player Hcp Hplayer) in H.
      simpl in H. injection H as _ <-. right. right. reflexivity.
    + injection H as _ <-. left. reflexivity.
  - unfold try_to_buy in H. simpl in H.
    destruct ((sell_cost property <=? get_balance h player)
              && decide_to_buy h player property coin).
    + apply bind_Ok_inv in H as (b & Hb & H). injection H as _ <-.
      apply setitem_Ok in Hb as (k & Hk & ->).
      apply property_at_Ok in Hprop as (k' & Hk' & Hlook).
      assert (k' = k) by congruence. subst k'.
      right. left. exists k, property. split; [exact Hlook | reflexivity].
    + injection H as _ <-. left. reflexivity.
Qed.

Lemma elem_of_insert_inv {A : Type} (l : list A) (k : nat) (x y : A) :
  y ∈ <[k := x]> l -> y = x \/ y ∈ l.
Proof.
  intros H. apply list_elem_of_lookup in H as [j Hj].
  apply list_lookup_insert_Some in Hj as [(_ & -> & _)|[_ Hj]].
  - left. reflexivity.
  - right. apply list_elem_of_lookup. eauto.
Qed.

Lemma owner_is_true (pr : Property) (p : ref) :
  owner_is pr p = true <-> owner pr = Some p.
Proof.
  unfold owner_is. destruct (owner pr) as [o|].
  - destruct (Nat.eqb_spec o p); split; congruence.
  - split; discriminate.
Qed.

(** After [apply_defeat_to], the player owns nothing and the other
    properties are as before. *)
Lemma released_owner (b : Board) (p : ref) (pr' : Property) (o : ref) :
  pr' ∈ map (fun pr => if owner_is pr p then set_owner pr None else pr) b ->
  owner pr' = Some o ->
  o <> p /\ exists pr, pr ∈ b /\ owner pr = Some o.
Proof.
  intros Hin Ho. apply list_elem_of_In, in_map_iff in Hin as (pr & <- & Hpr).
  apply list_elem_of_In in Hpr.
  destruct (owner_is pr p) eqn:E; [discriminate|].
  split; [|eauto].
  intros ->. apply owner_is_true in Ho. congruence.
Qed.

Lemma turn_keeps_game_inv (fuel : nat) (die_roll : Z) (coin : bool)
    (s s' : heap * Game) :
  turn fuel die_roll coin s = Ok s' -> game_inv (snd s) -> game_inv (snd s').
Proof.
  destruct s as [h g], s' as [h' g']. simpl. unfold turn. intros H Hinv.
  apply bind_Ok_inv in H as ([[h1 g1] player] & Hmove & H).
  apply bind_Ok_inv in H as ([h2 g2] & Hland & Hend). simpl in Hland.
  apply turn_move_Ok in Hmove as (Hplayer & pp & ->).
  unfold turn_end in Hend. simpl in Hend.
  apply bind_Ok_inv in Hend as (g3 & Hnext & Hend). injection Hend as _ <-.
  destruct Hinv as [Hlen Hcur Hown].
  destruct Hcur as [Hnil|[Hcp Hact]].
  { apply getitem_Ok in Hplayer as (k & _ & Hk). rewrite Hnil in Hk. discriminate. }
  pose proof (getitem_nonneg_inv _ _ _ (proj1 Hcp) Hplayer) as Hlook.
  assert (Hinv2 : length (active_player g2) = length (players g2) /\
                  players g2 = players g /\ owners_active g2).
  { apply turn_land_cases in Hland; simpl; [|lia|exact Hplayer].
    destruct Hland as [->|[(k & property & Hk & ->)| ->]]; simpl.
    - split; [exact Hlen|]. split; [reflexivity|]. exact Hown.
    - split; [exact Hlen|]. split; [reflexivity|].
      intros pr o Hin Ho. simpl in Hin.
      apply elem_of_insert_inv in Hin as [->|Hin].
      + simpl in Ho. injection Ho as <-. simpl.
        exists (Z.to_nat (current_player g)). split; [exact Hlook | exact Hact].
      + apply (Hown pr o Hin Ho).
    - split; [rewrite length_insert; exact Hlen|]. split; [reflexivity|].
      intros pr o Hin Ho. simpl in Hin.
      apply (released_owner _ _ _ o) in Hin as (Hne & pr0 & Hin0 & Ho0); [|exact Ho].
      destruct (Hown pr0 o Hin0 Ho0) as (i & Hi & Hai). simpl.
      exists i. split; [exact Hi|].
      rewrite list_lookup_insert_ne; [exact Hai|].
      intros <-. congruence. }
  destruct Hinv2 as (Hlen2 & Hps2 & Hown2).
  apply next_player_turn_Ok in Hnext as (cp & -> & Hrange & Hactive). simpl in *.
  constructor; simpl.
  - exact Hlen2.
  - right. split; [exact Hrange|].
    apply getitem_nonneg_inv; [lia | exact Hactive].
  - exact Hown2.
Qed.

Lemma new_Game_inv (b : Board) (ps : list ref) :
  Forall (fun pr => owner pr = None) b -> game_inv (new_Game b ps).
Proof.
  intros Hb. constructor; simpl.
  - apply length_map.
  - destruct ps as [|p ps]; [left; reflexivity|]. right. simpl. split; [lia | reflexivity].
  - intros pr o Hin Ho. simpl in Hin.
    eapply Forall_forall in Hb; [|apply list_elem_of_In; exact Hin]. congruence.
Qed.

Lemma reachable_game_inv (s : heap * Game) : reachable s -> game_inv (snd s).
Proof.
  induction 1 as [h b ps Hb|s s' fuel d c _ IH Hturn].
  - apply new_Game_inv. exact Hb.
  - eapply turn_keeps_game_inv; [exact Hturn | exact IH].
Qed.

Lemma pay_rent_defeat (h : heap) (g : Game) (coin : bool) (player : ref) (pos : Z)
    (property : Property) (o : ref) :
  0 <= current_player g < Z.of_nat (length (active_player g)) ->
  getitem (players g) (current_player g) = Ok player ->
  getitem (player_position g) (current_player g) = Ok pos ->
  property_at (board g) pos = Ok property ->
  owner property = Some o ->
  get_balance (transfer h player o (rent_cost property)) player < 0 ->
  exists g',
    turn_land coin player (h, g) = Ok (transfer h player o (rent_cost property), g') /\
    players g' = players g /\
    active_player g' !! Z.to_nat (current_player g) = Some false /\
    (forall pr, pr ∈ board g' -> owner pr <> Some player).
Proof.
  intros Hcp Hplayer Hpos Hprop Ho Hneg.
  unfold turn_land. simpl. rewrite Hpos. simpl. rewrite Hprop. simpl. rewrite Ho.
  unfold pay_rent. simpl.
  destruct (Z.ltb_spec (get_balance (transfer h player o (rent_cost property)) player) 0);
    [|lia].
  rewrite (apply_defeat_to_nonneg g (current_player g) player Hcp Hplayer). simpl.
  eexists. split; [reflexivity|]. simpl. split; [reflexivity|]. split.
  - apply list_lookup_insert_eq. lia.
  - intros pr Hin Hpr.
    apply (released_owner _ _ _ player) in Hin as [Hne _]; [|exact Hpr].
    apply Hne. reflexivity.
Qed.

(** C7.  In every state a game can reach, the owner of a property, if
    there is one, is a player of the game whose flag says active; a property
    has one owner field, so never two owners.  When the rent leaves the
    current player with a negative balance, the same step marks the player
    inactive and leaves no property of the board owned by that player. *)
Theorem owners_are_active_players :
  (forall s, reachable s -> owners_active (snd s)) /\
  (forall s pr o1 o2,
      reachable s -> pr ∈ board (snd s) ->
      owner pr = Some o1 -> owner pr = Some o2 -> o1 = o2) /\
  (forall (h : heap) (g : Game) (coin : bool) (player : ref) (pos : Z)
          (property : Property) (o : ref),
      0 <= current_player g < Z.of_nat (length (active_player g)) ->
      getitem (players g) (current_player g) = Ok player ->
      getitem (player_position g) (current_player g) = Ok pos ->
      property_at (board g) pos = Ok property ->
      owner property = Some o ->
      get_balance (transfer h player o (rent_cost property)) player < 0 ->
      exists g',
        turn_land coin player (h, g)
          = Ok (transfer h player o (rent_cost property), g') /\
        players g' = players g /\
        active_player g' !! Z.to_nat (current_player g) = Some false /\
        (forall pr, pr ∈ board g' -> owner pr <> Some player)).
Proof.
  split; [|split].
  - intros s Hs. exact (inv_owners _ (reachable_game_inv s Hs)).
  - intros s pr o1 o2 _ _ H1 H2. congruence.
  - apply pay_rent_defeat.
Qed.

Lemma owners_are_active_players_witness :
  match turn 4 2 false
          (report_heap,
           new_Game [new_Property 120 7; new_Property 2 2] report_players) with
  | Ok s => owners_active (snd s)
  | _ => False
  end /\
  exists g',
    turn_land false 1%nat
      (report_heap,
       mkGame [mkProperty 120 1000 (Some 0%nat)] report_players 1 2
              [0; 0; 0; 0] [true; true; true; true])
    = Ok (transfer report_heap 1%nat 0%nat 1000, g') /\
    active_player g' !! 1%nat = Some false.
Proof.
  destruct owners_are_active_players as (Hreach & _ & Hdefeat).
  split.
  - destruct (turn 4 2 false
                (report_heap,
                 new_Game [new_Property 120 7; new_Property 2 2] report_players))
      as [s| |] eqn:E.
    + apply Hreach.
      eapply reachable_turn; [|exact E].
      apply reachable_init. repeat constructor.
    + vm_compute in E. discriminate E.
    + vm_compute in E. discriminate E.
  - destruct (Hdefeat report_heap
                (mkGame [mkProperty 120 1000 (Some 0%nat)] report_players 1 2
                        [0; 0; 0; 0] [true; true; true; true])
                false 1%nat 0 (mkProperty 120 1000 (Some 0%nat)) 0%nat)
      as (g' & Hland & _ & Hact & _).
    + simpl. lia.
    + reflexivity.
    + reflexivity.
    + reflexivity.
    + reflexivity.
    + vm_compute. reflexivity.
    + exists g'. split; [exact Hland | exact Hact].
Defined.



(** ** Games of one runner *)

Lemma mapM_Ok {A B : Type} (f : A -> result B) (l : list A) (l' : list B) :
  mapM f l = Ok l' ->
  length l' = length l /\ Forall (fun y => exists x, f x = Ok y) l'.
Proof.
  revert l'. induction l as [|x l IH]; intros l' H; simpl in H.
  - injection H as <-. split; [reflexivity | constructor].
  - apply bind_Ok_inv in H as (y & Hy & H).
    apply bind_Ok_inv in H as (ys & Hys & H). injection H as <-.
    destruct (IH ys Hys) as [Hlen Hall]. split; [simpl; lia|].
    constructor; [eauto | exact Hall].
Qed.

Lemma random_property_Ok (max_sell max_rent sell rent : Z) (pr : Property) :
  random_property max_sell max_rent sell rent = Ok pr -> owner pr = None.
Proof.
  unfold random_property. destruct (max_sell <? 1); [discriminate|].
  destruct (max_rent <? 1); [discriminate|]. intros H. injection H as <-. reflexivity.
Qed.

Lemma random_board_Ok (max_sell max_rent : Z) (draws : nat -> Z * Z) (b : Board) :
  random_board max_sell max_rent draws = Ok b ->
  length b = 20%nat /\ Forall (fun pr => owner pr = None) b.
Proof.
  unfold random_board. intros H. apply mapM_Ok in H as [Hlen Hall].
  split; [exact Hlen|].
  eapply Forall_impl; [|exact Hall]. simpl.
  intros pr [i Hi]. eapply random_property_Ok. exact Hi.
Qed.

Lemma play_game_Ok (depth fuel : nat) (d : Draws) (h h' : heap) (r r' : GameRunner) :
  play_game depth fuel d (h, r) = Ok (h', r') ->
  exists b g',
    random_board (max_sell_cost r) (max_rent_cost r) (prices d) = Ok b /\
    play depth fuel (rolls d) (h, new_Game b (runner_players r)) = Ok (h', g') /\
    runner_players r' = runner_players r /\
    max_sell_cost r' = max_sell_cost r /\
    max_rent_cost r' = max_rent_cost r.
Proof.
  unfold play_game, random_game. simpl. intros H.
  apply bind_Ok_inv in H as (game & Hgame & H).
  apply bind_Ok_inv in Hgame as (b & Hb & Hgame). injection Hgame as <-.
  apply bind_Ok_inv in H as ([h1 g1] & Hplay & H). simpl in H.
  apply bind_Ok_inv in H as (w & _ & H).
  apply bind_Ok_inv in H as (tw & _ & H).
  apply bind_Ok_inv in H as (wins & _ & H).
  injection H as <- <-. simpl.
  exists b, g1. auto.
Qed.

(** C8.  Each call of [play_game] builds a board of 20 properties without
    owner and plays a new game on it over the runner's own list of players,
    starting from the balances it is given.  No balance is reset: the second
    of two consecutive calls starts its game from the very balances the game
    of the first call ended with. *)
Theorem play_game_shares_players (depth fuel : nat) (d1 d2 : Draws)
    (h0 h1 h2 : heap) (r0 r1 r2 : GameRunner) :
  play_game depth fuel d1 (h0, r0) = Ok (h1, r1) ->
  play_game depth fuel d2 (h1, r1) = Ok (h2, r2) ->
  exists (b1 b2 : Board) (g1 g2 : Game),
    random_board (max_sell_cost r0) (max_rent_cost r0) (prices d1) = Ok b1 /\
    random_board (max_sell_cost r0) (max_rent_cost r0) (prices d2) = Ok b2 /\
    length b1 = 20%nat /\ Forall (fun pr => owner pr = None) b1 /\
    length b2 = 20%nat /\ Forall (fun pr => owner pr = None) b2 /\
    play depth fuel (rolls d1) (h0, new_Game b1 (runner_players r0)) = Ok (h1, g1) /\
    play depth fuel (rolls d2) (h1, new_Game b2 (runner_players r0)) = Ok (h2, g2) /\
    runner_players r1 = runner_players r0 /\
    runner_players r2 = runner_players r0.
Proof.
  intros H1 H2.
  apply play_game_Ok in H1 as (b1 & g1 & Hb1 & Hplay1 & Hps1 & Hs1 & Hr1).
  apply play_game_Ok in H2 as (b2 & g2 & Hb2 & Hplay2 & Hps2 & _ & _).
  rewrite Hps1, Hs1, Hr1 in *.
  destruct (random_board_Ok _ _ _ _ Hb1) as [Hlen1 Hfresh1].
  destruct (random_board_Ok _ _ _ _ Hb2) as [Hlen2 Hfresh2].
  exists b1, b2, g1, g2. auto 12.
Qed.

Lemma play_game_shares_players_witness :
  exists (h1 h2 : heap) (b2 : Board) (g2 : Game),
    get_balance h1 0%nat = 1098 /\
    play 4 13 (rolls first_game) (h1, new_Game b2 report_players) = Ok (h2, g2).
Proof.
  assert (E : exists h1 r1,
             play_game 4 13 first_game (report_heap, report_runner) = Ok (h1, r1) /\
             get_balance h1 0%nat = 1098 /\
             exists h2 r2, play_game 4 13 first_game (h1, r1) = Ok (h2, r2)).
  { eexists _, _. split; [vm_compute; reflexivity|].
    split; [vm_compute; reflexivity|].
    eexists _, _. vm_compute. reflexivity. }
  destruct E as (h1 & r1 & E1 & Hbal & h2 & r2 & E2).
  destruct (play_game_shares_players 4 13 first_game first_game
              report_heap h1 h2 report_runner r1 r2 E1 E2)
    as (b1 & b2 & g1 & g2 & _ & _ & _ & _ & _ & _ & _ & Hplay2 & _ & _).
  exists h1, h2, b2, g2. split; [exact Hbal | exact Hplay2].
Defined.

(** ** The highest balance *)

Lemma fold_left_max_spec (l : list Z) (x : Z) :
  x <= fold_left Z.max l x /\
  (forall y, In y l -> y <= fold_left Z.max l x) /\
  In (fold_left Z.max l x) (x :: l).
Proof.
  revert x. induction l as [|a l IH]; intros x; simpl.
  - split; [lia|]. split; [tauto | left; reflexivity].
  - destruct (IH (Z.max x a)) as (Hge & Hall & Hin). split; [lia|]. split.
    + intros y [<-|Hy]; [lia | apply Hall; exact Hy].
    + destruct Hin as [Hin|Hin]; [|right; right; exact Hin].
      rewrite <- Hin. destruct (Z.max_spec x a) as [[_ ->]|[_ ->]]; auto.
Qed.

Lemma py_max_spec (l : list Z) :
  l <> [] ->
  exists m, py_max l = Ok m /\ In m l /\ forall y, In y l -> y <= m.
Proof.
  destruct l as [|x l]; [contradiction|]. intros _.
  destruct (fold_left_max_spec l x) as (Hge & Hall & Hin).
  exists (fold_left Z.max l x). split; [reflexivity|]. split; [exact Hin|].
  intros y [<-|Hy]; [exact Hge | apply Hall; exact Hy].
Qed.

Lemma player_with_highest_balance_spec (h : heap) (g : Game) :
  players g <> [] ->
  exists p,
    player_with_highest_balance h g = Ok p /\
    p ∈ players g /\
    forall q, q ∈ players g -> get_balance h q <= get_balance h p.
Proof.
  intros Hne. unfold player_with_highest_balance.
  destruct (py_max_spec (map (get_balance h) (players g))) as (m & Hm & Hin & Hmax).
  { destruct (players g); [contradiction | discriminate]. }
  rewrite Hm. simpl.
  apply in_map_iff in Hin as (q0 & Hq0 & Hq0in).
  assert (Hf : In q0 (List.filter (fun p => get_balance h p =? m) (players g))).
  { apply filter_In. split; [exact Hq0in | apply Z.eqb_eq; exact Hq0]. }
  destruct (List.filter (fun p => get_balance h p =? m) (players g)) as [|p rest] eqn:E;
    [destruct Hf|].
  exists p. split; [reflexivity|].
  assert (Hp : In p (List.filter (fun p => get_balance h p =? m) (players g)))
    by (rewrite E; left; reflexivity).
  apply filter_In in Hp as [Hpin Hpm]. apply Z.eqb_eq in Hpm.
  split; [apply list_elem_of_In; exact Hpin|].
  intros q Hq. rewrite Hpm. apply Hmax. apply in_map. apply list_elem_of_In. exact Hq.
Qed.

(** C10.  [player_with_highest_balance] returns a player of the game whose
    balance is at least that of every player of the game, and its result
    does not depend on the flags that say who is active.  So the player
    recorded for a timed out game can be one that the game had eliminated:
    in the second of the two games below, played by the runner of [report]
    after the first, the game stops at turn 1000 without winner, player 0
    is inactive and is the player [play_game] records. *)
Theorem highest_balance_counts_inactive_players :
  (forall (h : heap) (g : Game),
      players g <> [] ->
      exists p,
        player_with_highest_balance h g = Ok p /\
        p ∈ players g /\
        forall q, q ∈ players g -> get_balance h q <= get_balance h p) /\
  (forall (h : heap) (g : Game) (act : list bool),
      player_with_highest_balance h (with_active_player g act)
      = player_with_highest_balance h g) /\
  (draws_in_range 5000 1000000 first_game 12 = true /\
   draws_in_range 5000 1000000 second_game 999 = true /\
   exists (h1 h2 : heap) (r1 r2 : GameRunner) (g0 g2 : Game),
     play_game 4 12 first_game (report_heap, report_runner) = Ok (h1, r1) /\
     random_game 5000 1000000 report_players (prices second_game) = Ok g0 /\
     play 4 999 (rolls second_game) (h1, g0) = Ok (h2, g2) /\
     has_winner g2 = Ok None /\
     current_turn g2 = 1000 /\
     players g2 = report_players /\
     active_player g2 = [false; false; true; true] /\
     map (get_balance h2) report_players = [-498403; -499601; -997300; -997300] /\
     player_with_highest_balance h2 g2 = Ok 0%nat /\
     play_game 4 999 second_game (h1, r1) = Ok (h2, r2) /\
     winner r2 = winner r1 ++ [0%nat] /\
     timed_out_games r2 = timed_out_games r1 + 1).
Proof.
  split; [|split].
  - apply player_with_highest_balance_spec.
  - reflexivity.
  - split; [vm_compute; reflexivity|]. split; [vm_compute; reflexivity|].
    eexists _, _, _, _, _, _.
    do 11 (split; [vm_compute; reflexivity|]).
    vm_compute; reflexivity.
Qed.

Lemma highest_balance_counts_inactive_players_witness :
  exists p,
    player_with_highest_balance report_heap
      (mkGame [new_Property 1 1] report_players 0 1 [0; 0; 0; 0]
              [false; true; true; true]) = Ok p /\
    p ∈ report_players.
Proof.
  destruct highest_balance_counts_inactive_players as (Hmax & _ & _).
  destruct (Hmax report_heap
              (mkGame [new_Property 1 1] report_players 0 1 [0; 0; 0; 0]
                      [false; true; true; true])) as (p & Hp & Hin & _).
  - discriminate.
  - exists p. split; [exact Hp | exact Hin].
Defined.


(** * Further properties *)

(** ** Transfers *)

(** X1.  A transfer between two distinct players keeps every other player
    object and every behaviour; the sum of the two balances falls by the
    part of [amount] the payer could not cover, so it is kept exactly when
    the payer can afford [amount]. *)
Theorem transfer_total (h : heap) (a b : ref) (amount : Z) :
  a <> b ->
  get_balance (transfer h a b amount) a + get_balance (transfer h a b amount) b
    = get_balance h a + get_balance h b - Z.max 0 (amount - get_balance h a) /\
  (forall p, p <> a -> p <> b -> transfer h a b amount p = h p) /\
  (forall p, behavior (transfer h a b amount p) = behavior (h p)).
Proof.
  intros Hab. rewrite transfer_to, transfer_from by exact Hab.
  split; [lia|]. unfold transfer.
  destruct (Nat.eqb_spec a b) as [E|_]; [contradiction|]. split.
  - intros p Hpa Hpb. unfold decrease_balance, increase_balance, heap_set.
    destruct (Nat.eqb_spec p a); [contradiction|].
    destruct (Nat.eqb_spec p b); [contradiction|]. reflexivity.
  - intros p. rewrite behavior_decrease, behavior_increase. reflexivity.
Qed.

Lemma transfer_total_witness :
  get_balance (transfer report_heap 0%nat 1%nat 80) 0%nat
  + get_balance (transfer report_heap 0%nat 1%nat 80) 1%nat = 600.
Proof.
  destruct (transfer_total report_heap 0%nat 1%nat 80) as [H _].
  - discriminate.
  - rewrite H. reflexivity.
Defined.

(** ** The winner, in full *)

Lemma NoDup_singleton_of_unique (l : list nat) (i : nat) :
  NoDup l -> i ∈ l -> (forall j, j ∈ l -> j = i) -> l = [i].
Proof.
  intros Hnd Hi Hall. destruct l as [|a l]; [inversion Hi|].
  assert (a = i) by (apply Hall, list_elem_of_here). subst a.
  destruct l as [|b l]; [reflexivity|]. exfalso.
  assert (b = i) by (apply Hall, list_elem_of_further, list_elem_of_here). subst b.
  inversion Hnd as [|? ? Hnot _]; subst. apply Hnot, list_elem_of_here.
Qed.

Lemma has_winner_Some (g : Game) (p : ref) :
  length (active_player g) = length (players g) ->
  has_winner g = Ok (Some p) <->
  exists i : nat,
    players g !! i = Some p /\
    active_player g !! i = Some true /\
    forall j : nat, active_player g !! j = Some true -> j = i.
Proof.
  intros Hlen.
  unfold has_winner. rewrite active_ids_game by exact Hlen. simpl. split.
  - intros H. destruct (active_indices g) as [|i [|j rest]] eqn:E; try discriminate.
    apply bind_Ok_inv in H as (q & Hq & H). injection H as ->.
    exists i.
    assert (Hi : i ∈ active_indices g) by (rewrite E; apply list_elem_of_here).
    apply (elem_of_active_indices g i Hlen) in Hi.
    split; [|split; [exact Hi|]].
    + apply getitem_nonneg_inv in Hq; [|lia]. rewrite Nat2Z.id in Hq. exact Hq.
    + intros j Hj. apply (elem_of_active_indices g j Hlen) in Hj.
      rewrite E in Hj. apply list_elem_of_singleton in Hj. exact Hj.
  - intros (i & Hp & Hi & Huniq).
    rewrite (NoDup_singleton_of_unique (active_indices g) i).
    + rewrite (getitem_nonneg _ _ p); [reflexivity | lia |].
      rewrite Nat2Z.id. exact Hp.
    + apply NoDup_active_indices.
    + apply elem_of_active_indices; assumption.
    + intros j Hj. apply Huniq. apply (elem_of_active_indices g j Hlen). exact Hj.
Qed.

(** X2.  With one flag per player, [has_winner] never raises; it returns a
    player exactly when one flag only is true, and then the player at the
    index of that flag. *)
Theorem has_winner_spec (g : Game) (p : ref) :
  length (active_player g) = length (players g) ->
  (exists w, has_winner g = Ok w) /\
  (has_winner g = Ok (Some p) <->
   exists i : nat,
     players g !! i = Some p /\
     active_player g !! i = Some true /\
     forall j : nat, active_player g !! j = Some true -> j = i).
Proof.
  intros Hlen. split.
  - destruct (has_winner_wf g Hlen) as (w & Hw & _). eauto.
  - apply has_winner_Some. exact Hlen.
Qed.

Lemma has_winner_spec_witness :
  has_winner (mkGame [new_Property 1 1] report_players 2 7 [0; 0; 0; 0]
                     [false; false; true; false]) = Ok (Some 2%nat).
Proof.
  destruct (has_winner_spec
              (mkGame [new_Property 1 1] report_players 2 7 [0; 0; 0; 0]
                      [false; false; true; false]) 2%nat) as [_ [_ H]].
  - reflexivity.
  - apply H. exists 2%nat. split; [reflexivity|]. split; [reflexivity|].
    intros [|[|[|[|j]]]] Hj; try discriminate Hj; reflexivity.
Defined.

(** ** Degenerate games *)

Lemma getitem_nil {A : Type} (i : Z) : getitem ([] : list A) i = Raise IndexError.
Proof.
  unfold getitem. rewrite normalize_index_out by (simpl; lia). reflexivity.
Qed.

Lemma has_winner_new_Game (b : Board) (ps : list ref) :
  has_winner (new_Game b ps) =
  Ok (match ps with [p] => Some p | _ => None end).
Proof.
  assert (Hlen : length (active_player (new_Game b ps)) = length (players (new_Game b ps)))
    by apply length_map.
  destruct ps as [|p [|q rest]]; [reflexivity | reflexivity |].
  destruct (has_winner_wf _ Hlen) as ([w|] & Hw & _); [|exact Hw].
  apply has_winner_Some in Hw as (i & _ & _ & Huniq); [|exact Hlen].
  pose proof (Huniq 0%nat eq_refl) as H0. pose proof (Huniq 1%nat eq_refl) as H1.
  congruence.
Qed.

(** X3.  A game made for one player is won before any turn; one made for two
    players or more, or for none, has no winner yet. *)
Theorem new_Game_winner (depth fuel : nat) (rolls : nat -> Z * bool)
    (h : heap) (b : Board) (ps : list ref) :
  has_winner (new_Game b ps) = Ok (match ps with [p] => Some p | _ => None end) /\
  (length ps = 1%nat ->
   play depth fuel rolls (h, new_Game b ps) = Ok (h, new_Game b ps)).
Proof.
  split; [apply has_winner_new_Game|].
  intros Hone. apply play_stopped. simpl. unfold stop_condtion.
  rewrite has_winner_new_Game.
  destruct ps as [|p [|q rest]]; try discriminate Hone. reflexivity.
Qed.

Lemma new_Game_winner_witness :
  play 0 0 (fun _ => (1, false)) (report_heap, new_Game [] [3%nat])
  = Ok (report_heap, new_Game [] [3%nat]).
Proof.
  destruct (new_Game_winner 0 0 (fun _ => (1, false)) report_heap [] [3%nat])
    as [_ H].
  apply H. reflexivity.
Defined.

(** X4.  Without players, a game that has not reached turn 1000 has no winner and
    its first turn raises [IndexError], so [play] does. *)
Theorem play_without_players (depth fuel : nat) (rolls : nat -> Z * bool)
    (h : heap) (g : Game) :
  players g = [] ->
  current_turn g < 1000 ->
  has_winner g = Ok None /\
  play depth (S fuel) rolls (h, g) = Raise IndexError.
Proof.
  intros Hps Hturn.
  assert (Hw : has_winner g = Ok None).
  { unfold has_winner. rewrite Hps. reflexivity. }
  split; [exact Hw|].
  rewrite play_running.
  - unfold turn, turn_move. simpl. rewrite Hps, getitem_nil. reflexivity.
  - simpl. unfold stop_condtion. rewrite Hw. simpl.
    destruct (Z.leb_spec 1000 (current_turn g)); [lia | reflexivity].
Qed.

Lemma play_without_players_witness :
  play 4 1 (fun _ => (1, false)) (report_heap, new_Game [new_Property 1 1] [])
  = Raise IndexError.
Proof.
  destruct (play_without_players 4 0 (fun _ => (1, false)) report_heap
              (new_Game [new_Property 1 1] [])) as [_ H].
  - reflexivity.
  - simpl. lia.
  - exact H.
Defined.

(** X5.  On an empty board the first move of a turn divides by zero: the turn
    raises [ZeroDivisionError] whenever the current player exists and the
    position plus the die roll is not negative. *)
Theorem turn_on_empty_board (depth : nat) (die_roll : Z) (coin : bool)
    (h : heap) (g : Game) (pos : Z) :
  board g = [] ->
  length (player_position g) = length (players g) ->
  0 <= current_player g < Z.of_nat (length (players g)) ->
  player_position g !! Z.to_nat (current_player g) = Some pos ->
  0 <= pos + die_roll ->
  turn depth die_roll coin (h, g) = Raise ZeroDivisionError.
Proof.
  intros Hb Hlen Hcp Hpos Hsum.
  destruct (lookup_lt_is_Some_2 (players g) (Z.to_nat (current_player g)))
    as [player Hplayer]; [lia|].
  unfold turn, turn_move. simpl.
  rewrite (getitem_nonneg _ _ player) by (first [lia | exact Hplayer]). simpl.
  rewrite (getitem_nonneg _ _ pos) by (first [lia | exact Hpos]). simpl.
  rewrite setitem_nonneg by lia. simpl.
  unfold adjust_position_to_length. simpl.
  rewrite (getitem_nonneg _ _ (pos + die_roll));
    [|lia|apply list_lookup_insert_eq; lia].
  simpl. rewrite Hb. simpl. change (Z.of_nat 0) with 0.
  destruct (Z.leb_spec 0 (pos + die_roll)); [reflexivity | lia].
Qed.

Lemma turn_on_empty_board_witness :
  turn 4 6 false (report_heap, new_Game [] report_players) = Raise ZeroDivisionError.
Proof.
  apply (turn_on_empty_board 4 6 false report_heap (new_Game [] report_players) 0).
  - reflexivity.
  - reflexivity.
  - simpl. lia.
  - reflexivity.
  - lia.
Defined.

(** ** The search for the next player *)

(** X6.  When no player is active the search never returns: whatever the bound
    on the depth of the recursion, it is exhausted. *)
Theorem next_player_turn_without_active_player (fuel : nat) (g : Game) :
  length (active_player g) = length (players g) ->
  players g <> [] ->
  (forall i : nat, active_player g !! i <> Some true) ->
  next_player_turn fuel g = OutOfFuel.
Proof.
  revert g. induction fuel as [|fuel IH]; intros g Hlen Hne Hnone; [reflexivity|].
  simpl.
  assert (Hpos : (0 < length (players g))%nat).
  { destruct (players g); [contradiction | simpl; lia]. }
  destruct (Z.eqb_spec (Z.of_nat (length (players g))) 0) as [|Hn]; [lia|].
  set (n := Z.of_nat (length (players g))) in *.
  assert (Hcp : 0 <= (current_player g + 1) mod n < n) by (apply Z.mod_pos_bound; lia).
  destruct (lookup_lt_is_Some_2 (active_player g)
              (Z.to_nat ((current_player g + 1) mod n))) as [a Ha]; [lia|].
  rewrite (getitem_nonneg _ _ a); [|lia|exact Ha].
  simpl. destruct a; [destruct (Hnone _ Ha)|]. simpl.
  apply IH; assumption.
Qed.

Lemma next_player_turn_without_active_player_witness :
  next_player_turn 1000
    (mkGame [new_Property 1 1] report_players 0 1 [0; 0; 0; 0]
            [false; false; false; false]) = OutOfFuel.
Proof.
  apply next_player_turn_without_active_player.
  - reflexivity.
  - discriminate.
  - intros [|[|[|[|i]]]]; discriminate.
Defined.

Lemma next_player_turn_first (fuel : nat) (g g' : Game) :
  next_player_turn fuel g = Ok g' ->
  let n := Z.of_nat (length (players g)) in
  exists d : Z,
    1 <= d <= Z.of_nat fuel /\
    g' = with_current_player g ((current_player g + d) mod n) /\
    getitem (active_player g) ((current_player g + d) mod n) = Ok true /\
    forall e, 1 <= e < d ->
      getitem (active_player g) ((current_player g + e) mod n) = Ok false.
Proof.
  revert g. induction fuel as [|fuel IH]; intros g H n; [discriminate|].
  simpl in H. fold n in H.
  destruct (Z.eqb_spec n 0) as [|Hn]; [discriminate|].
  apply bind_Ok_inv in H as (a & Ha & H). simpl in Ha.
  destruct a; simpl in H.
  - injection H as <-. exists 1. split; [lia|]. split; [reflexivity|].
    split; [exact Ha|]. intros e He. lia.
  - apply IH in H as (d & Hd & -> & Hact & Hskip). simpl in *. fold n in Hact, Hskip.
    assert (Hshift : forall x, ((current_player g + 1) mod n + x) mod n
                               = (current_player g + (x + 1)) mod n).
    { intros x. rewrite Zplus_mod_idemp_l. f_equal. lia. }
    exists (d + 1). split; [lia|]. fold n. rewrite <- Hshift.
    split; [reflexivity|]. split; [exact Hact|].
    intros e He. destruct (Z.eq_dec e 1) as [->|Hne].
    + exact Ha.
    + replace e with ((e - 1) + 1) by lia. rewrite <- Hshift.
      apply Hskip. lia.
Qed.

(** X7.  When the search returns, only [current_player] has changed, and it is
    the first active index met going round from the index after the old
    one: every index passed on the way is inactive. *)
Theorem next_player_turn_spec (fuel : nat) (g g' : Game) :
  next_player_turn fuel g = Ok g' ->
  exists d : Z,
    1 <= d <= Z.of_nat fuel /\
    g' = with_current_player g
           ((current_player g + d) mod Z.of_nat (length (players g))) /\
    getitem (active_player g)
            ((current_player g + d) mod Z.of_nat (length (players g))) = Ok true /\
    forall e, 1 <= e < d ->
      getitem (active_player g)
              ((current_player g + e) mod Z.of_nat (length (players g))) = Ok false.
Proof. apply next_player_turn_first. Qed.

Lemma next_player_turn_spec_witness :
  exists d : Z,
    next_player_turn 4
      (mkGame [new_Property 1 1] report_players 2 5 [0; 0; 0; 0]
              [false; true; true; false])
    = Ok (mkGame [new_Property 1 1] report_players ((2 + d) mod 4) 5 [0; 0; 0; 0]
                 [false; true; true; false]) /\
    d = 3.
Proof.
  assert (E : exists g', next_player_turn 4
      (mkGame [new_Property 1 1] report_players 2 5 [0; 0; 0; 0]
              [false; true; true; false]) = Ok g').
  { eexists. vm_compute. reflexivity. }
  destruct E as [g' E].
  destruct (next_player_turn_spec _ _ _ E) as (d & Hd & -> & Hact & Hskip).
  exists d. simpl in *. split; [exact E|].
  assert (Hcases : d = 1 \/ d = 2 \/ d = 3 \/ d = 4) by lia.
  destruct Hcases as [Hc|[Hc|[Hc|Hc]]]; subst d;
    try (vm_compute in Hact; discriminate Hact).
  - reflexivity.
  - specialize (Hskip 3 ltac:(lia)). vm_compute in Hskip. discriminate Hskip.
Defined.

(** ** What a turn changes *)

Lemma turn_land_landed (h h' : heap) (g g' : Game) (coin : bool) (player : ref) :
  0 <= current_player g < Z.of_nat (length (active_player g)) ->
  getitem (players g) (current_player g) = Ok player ->
  turn_land coin player (h, g) = Ok (h', g') ->
  landed player h g h' g'.
Proof.
  intros Hcp Hplayer. unfold turn_land. simpl. intros H.
  apply bind_Ok_inv in H as (pos & _ & H).
  apply bind_Ok_inv in H as (property & Hprop & H).
  apply property_at_Ok in Hprop as (k & Hk & Hlook).
  destruct (owner property) as [o|] eqn:Ho.
  - unfold pay_rent in H. simpl in H.
    destruct (Z.ltb_spec (get_balance (transfer h player o (rent_cost property)) player) 0)
      as [Hneg|Hpos].
    + rewrite (apply_defeat_to_nonneg g (current_player g) player Hcp Hplayer) in H.
      simpl in H. injection H as <- <-.
      eapply landed_defeat; eassumption.
    + injection H as <- <-. eapply landed_rent; eassumption.
  - unfold try_to_buy in H. simpl in H.
    destruct (Z.leb_spec (sell_cost property) (get_balance h player)) as [Hle|Hgt];
      simpl in H.
    + destruct (decide_to_buy h player property coin).
      * apply bind_Ok_inv in H as (b & Hb & H). injection H as <- <-.
        apply setitem_Ok in Hb as (k' & Hk' & ->).
        assert (k' = k) by congruence. subst k'.
        eapply landed_buy; eassumption.
      * injection H as <- <-. eapply landed_pass; eassumption.
    + injection H as <- <-. eapply landed_pass; eassumption.
Qed.

(** Every turn that returns is a move, one of the four outcomes, and the
    choice of an active next player. *)
Lemma turn_Ok_inv (fuel : nat) (die_roll : Z) (coin : bool)
    (h h' : heap) (g g' : Game) :
  0 <= current_player g < Z.of_nat (length (active_player g)) ->
  turn fuel die_roll coin (h, g) = Ok (h', g') ->
  exists (player : ref) (pp : list Z) (bonus : bool) (g2 : Game) (cp : Z),
    getitem (players g) (current_player g) = Ok player /\
    landed player (if bonus then increase_balance h player 100 else h)
           (with_player_position g pp) h' g2 /\
    g' = with_current_player (with_current_turn g2 (current_turn g2 + 1)) cp /\
    0 <= cp < Z.of_nat (length (players g2)) /\
    getitem (active_player g2) cp = Ok true.
Proof.
  intros Hcp H. unfold turn in H.
  apply bind_Ok_inv in H as ([[h1 g1] player] & Hmove & H).
  apply bind_Ok_inv in H as ([h2 g2] & Hland & Hend). simpl in Hland.
  pose proof Hmove as Hmove'.
  apply turn_move_Ok in Hmove' as (Hplayer & pp & ->).
  assert (Hh1 : exists bonus : bool,
             h1 = if bonus then increase_balance h player 100 else h).
  { unfold turn_move in Hmove. simpl in Hmove.
    apply bind_Ok_inv in Hmove as (p & Hp & Hmove).
    apply bind_Ok_inv in Hmove as (pos & _ & Hmove).
    apply bind_Ok_inv in Hmove as (pp1 & _ & Hmove).
    apply bind_Ok_inv in Hmove as ([g1 b] & _ & Hmove).
    simpl in Hmove. injection Hmove as <- _ <-. exists b. reflexivity. }
  destruct Hh1 as [bonus ->].
  apply turn_land_landed in Hland; [|exact Hcp|exact Hplayer].
  unfold turn_end in Hend. simpl in Hend.
  apply bind_Ok_inv in Hend as (g3 & Hnext & Hend). injection Hend as <- <-.
  apply next_player_turn_Ok in Hnext as (cp & -> & Hrange & Hact).
  exists player, pp, bonus, g2, cp. simpl in *. auto.
Qed.

Lemma landed_frame (player : ref) (h h' : heap) (g g' : Game) :
  landed player h g h' g' ->
  players g' = players g /\
  player_position g' = player_position g /\
  current_player g' = current_player g /\
  current_turn g' = current_turn g /\
  map sell_cost (board g') = map sell_cost (board g) /\
  map rent_cost (board g') = map rent_cost (board g) /\
  (forall p, behavior (h' p) = behavior (h p)).
Proof.
  assert (Hrel : forall b, map sell_cost (release player b) = map sell_cost b /\
                           map rent_cost (release player b) = map rent_cost b).
  { intros b. unfold release. rewrite !map_map. split; apply map_ext; intros pr;
      destruct (owner_is pr player); reflexivity. }
  assert (Hins : forall (b : Board) k property o,
             b !! k = Some property ->
             map sell_cost (<[k := set_owner property o]> b) = map sell_cost b /\
             map rent_cost (<[k := set_owner property o]> b) = map rent_cost b).
  { intros b k property o Hk. split.
    - change (map sell_cost) with (fmap (M := list) sell_cost).
      rewrite list_fmap_insert. simpl. apply list_insert_id.
      rewrite list_lookup_fmap, Hk. reflexivity.
    - change (map rent_cost) with (fmap (M := list) rent_cost).
      rewrite list_fmap_insert. simpl. apply list_insert_id.
      rewrite list_lookup_fmap, Hk. reflexivity. }
  assert (Htr : forall o amount p,
             behavior (transfer h player o amount p) = behavior (h p)).
  { intros o amount p. unfold transfer. destruct (Nat.eqb player o); [reflexivity|].
    rewrite behavior_decrease, behavior_increase. reflexivity. }
  intros [k property o Hk Ho Hbal|k property o Hk Ho Hbal|k property Hk Ho Hle
          |k property Hk Ho]; simpl.
  - auto 10.
  - destruct (Hrel (board g)). auto 10.
  - destruct (Hins (board g) k property (Some player) Hk).
    repeat split; try assumption; try reflexivity.
    intros p. apply behavior_decrease.
  - auto 10.
Qed.

(** X8.  A turn that returns keeps the list of players, the prices and rents of
    the board, cell by cell, and the behaviour of every player object; it
    adds one to the turn counter. *)
Theorem turn_frame (fuel : nat) (die_roll : Z) (coin : bool)
    (h h' : heap) (g g' : Game) :
  0 <= current_player g < Z.of_nat (length (active_player g)) ->
  turn fuel die_roll coin (h, g) = Ok (h', g') ->
  players g' = players g /\
  map sell_cost (board g') = map sell_cost (board g) /\
  map rent_cost (board g') = map rent_cost (board g) /\
  (forall p, behavior (h' p) = behavior (h p)) /\
  current_turn g' = current_turn g + 1.
Proof.
  intros Hcp H.
  apply turn_Ok_inv in H as (player & pp & bonus & g2 & cp & _ & Hland & -> & _ & _);
    [|exact Hcp].
  apply landed_frame in Hland as (Hps & _ & _ & Hturn & Hsell & Hrent & Hbeh).
  simpl in *. repeat split; try assumption.
  - intros p. rewrite Hbeh. destruct bonus; [apply behavior_increase | reflexivity].
  - rewrite Hturn. reflexivity.
Qed.

Lemma turn_frame_witness :
  exists h' g',
    turn 4 2 false
      (report_heap, new_Game [new_Property 120 7; new_Property 2 9] report_players)
    = Ok (h', g') /\
    map sell_cost (board g') = [120; 2] /\
    map rent_cost (board g') = [7; 9].
Proof.
  assert (E : exists h' g',
             turn 4 2 false
               (report_heap,
                new_Game [new_Property 120 7; new_Property 2 9] report_players)
             = Ok (h', g')).
  { eexists _, _. vm_compute. reflexivity. }
  destruct E as (h' & g' & E).
  destruct (turn_frame 4 2 false report_heap h'
              (new_Game [new_Property 120 7; new_Property 2 9] report_players) g')
    as (_ & Hs & Hr & _).
  - simpl. lia.
  - exact E.
  - exists h', g'. split; [exact E|]. split; [exact Hs | exact Hr].
Defined.

(** X9.  A turn that returns changes no flag but that of the current player,
    and never makes an inactive player active again. *)
Theorem turn_flags (fuel : nat) (die_roll : Z) (coin : bool)
    (h h' : heap) (g g' : Game) :
  0 <= current_player g < Z.of_nat (length (active_player g)) ->
  turn fuel die_roll coin (h, g) = Ok (h', g') ->
  length (active_player g') = length (active_player g) /\
  (forall i : nat, i <> Z.to_nat (current_player g) ->
                   active_player g' !! i = active_player g !! i) /\
  (forall i : nat, active_player g !! i = Some false ->
                   active_player g' !! i = Some false).
Proof.
  intros Hcp H.
  apply turn_Ok_inv in H as (player & pp & bonus & g2 & cp & _ & Hland & -> & _ & _);
    [|exact Hcp].
  simpl.
  destruct Hland as [k property o Hk Ho Hbal|k property o Hk Ho Hbal|k property Hk Ho Hle
                     |k property Hk Ho]; simpl; try (split; [reflexivity|]; split; auto).
  rewrite length_insert. split; [reflexivity|]. split.
  - intros i Hi. apply list_lookup_insert_ne. congruence.
  - intros i Hi. destruct (Nat.eq_dec (Z.to_nat (current_player g)) i) as [<-|Hne].
    + apply list_lookup_insert_eq. lia.
    + rewrite list_lookup_insert_ne by exact Hne. exact Hi.
Qed.

Lemma turn_flags_witness :
  exists h' g',
    turn 4 1 false
      (report_heap,
       mkGame [mkProperty 120 1000 (Some 0%nat)] report_players 1 2
              [0; 0; 0; 0] [true; false; true; true])
    = Ok (h', g') /\
    active_player g' !! 1%nat = Some false.
Proof.
  assert (E : exists h' g',
             turn 4 1 false
               (report_heap,
                mkGame [mkProperty 120 1000 (Some 0%nat)] report_players 1 2
                       [0; 0; 0; 0] [true; false; true; true])
             = Ok (h', g')).
  { eexists _, _. vm_compute. reflexivity. }
  destruct E as (h' & g' & E).
  destruct (turn_flags 4 1 false report_heap h'
              (mkGame [mkProperty 120 1000 (Some 0%nat)] report_players 1 2
                      [0; 0; 0; 0] [true; false; true; true]) g')
    as (_ & _ & Hkeep).
  - simpl. lia.
  - exact E.
  - exists h', g'. split; [exact E|]. apply Hkeep. reflexivity.
Defined.

(** ** Debts *)

Lemma transfer_other (h : heap) (a b p : ref) (amount : Z) :
  p <> a -> p <> b -> get_balance (transfer h a b amount) p = get_balance h p.
Proof.
  intros Ha Hb. unfold transfer. destruct (Nat.eqb a b); [reflexivity|].
  rewrite get_balance_decrease.
  destruct (Nat.eqb_spec p a); [contradiction|].
  rewrite get_balance_increase.
  destruct (Nat.eqb_spec p b); [contradiction|]. reflexivity.
Qed.

Lemma rent_nonneg (b : Board) (k : nat) (property : Property) :
  Forall (fun r => 0 <= r) (map rent_cost b) ->
  b !! k = Some property -> 0 <= rent_cost property.
Proof.
  intros Hall Hk.
  assert (Hr : map rent_cost b !! k = Some (rent_cost property)).
  { change (map rent_cost b) with (fmap (M := list) rent_cost b).
    rewrite list_lookup_fmap, Hk. reflexivity. }
  eapply Forall_lookup_1 in Hall; [exact Hall | exact Hr].
Qed.

Lemma solvent_rent (h : heap) (g : Game) (k : nat) (player o : ref) (rent : Z)
    (act' : list bool) :
  length (active_player g) = length (players g) ->
  NoDup (players g) ->
  solvent (h, g) ->
  players g !! k = Some player ->
  active_player g !! k = Some true ->
  (exists j : nat, players g !! j = Some o /\ active_player g !! j = Some true) ->
  0 <= rent ->
  (0 <= get_balance (transfer h player o rent) player /\ act' = active_player g \/
   get_balance (transfer h player o rent) player < 0 /\
   act' = <[k := false]> (active_player g)) ->
  forall (i : nat) (p : ref),
    players g !! i = Some p ->
    (act' !! i = Some true -> 0 <= get_balance (transfer h player o rent) p) /\
    (act' !! i = Some false -> get_balance (transfer h player o rent) p < 0).
Proof.
  intros Hlen Hnd Hsolv Hplayer Hactive (j & Hj & Hjact) Hrent Hcase i p Hp.
  destruct (Hsolv k player Hplayer) as [Hplayer_pos _]. simpl in Hplayer_pos.
  specialize (Hplayer_pos Hactive).
  destruct (Hsolv j o Hj) as [Ho_pos _]. simpl in Ho_pos. specialize (Ho_pos Hjact).
  destruct (Hsolv i p Hp) as [Hp_pos Hp_neg]. simpl in Hp_pos, Hp_neg.
  assert (Hk : (k < length (active_player g))%nat)
    by (eapply lookup_lt_Some; exact Hactive).
  destruct (Nat.eq_dec p player) as [->|Hne].
  - assert (i = k) by (eapply NoDup_lookup; eassumption). subst i.
    destruct Hcase as [[Hbal ->]|[Hbal ->]].
    + split; [intros _; exact Hbal | congruence].
    + rewrite list_lookup_insert_eq by exact Hk. split; [discriminate | intros _; exact Hbal].
  - assert (Hik : i <> k) by (intros ->; congruence).
    assert (Hact' : act' !! i = active_player g !! i).
    { destruct Hcase as [[_ ->]|[_ ->]]; [reflexivity|].
      apply list_lookup_insert_ne. congruence. }
    rewrite Hact'.
    destruct (Nat.eq_dec p o) as [->|Hno].
    + assert (i = j) by (eapply NoDup_lookup; eassumption). subst i.
      rewrite transfer_to by congruence.
      split; [intros _; lia | congruence].
    + rewrite transfer_other by assumption. split; assumption.
Qed.

Lemma turn_keeps_fair (fuel : nat) (die_roll : Z) (coin : bool) (s s' : heap * Game) :
  turn fuel die_roll coin s = Ok s' -> fair s -> fair s'.
Proof.
  intros Hturn [Hinv Hnd Hrents Hsolv].
  pose proof (turn_keeps_game_inv _ _ _ _ _ Hturn Hinv) as Hinv'.
  destruct s as [h g], s' as [h' g']. simpl in *.
  destruct Hinv as [Hlen Hcur Hown].
  assert (Hcp : 0 <= current_player g < Z.of_nat (length (players g)) /\
                active_player g !! Z.to_nat (current_player g) = Some true).
  { destruct Hcur as [Hnil|Hcur]; [|exact Hcur].
    unfold turn, turn_move in Hturn. simpl in Hturn.
    rewrite Hnil, getitem_nil in Hturn. discriminate Hturn. }
  destruct Hcp as [Hcp Hactive].
  apply turn_Ok_inv in Hturn
    as (player & pp & bonus & g2 & cp & Hplayer & Hland & -> & _ & _); [|lia].
  apply getitem_nonneg_inv in Hplayer; [|lia].
  set (k := Z.to_nat (current_player g)) in *.
  set (h1 := if bonus then increase_balance h player 100 else h) in *.
  assert (Hsolv1 : solvent (h1, g)).
  { intros i p Hp. simpl in *. destruct (Hsolv i p Hp) as [Hpos Hneg]. simpl in *.
    subst h1. destruct bonus; [|split; assumption].
    rewrite get_balance_increase. destruct (Nat.eqb_spec p player) as [->|Hne].
    - assert (i = k) by (eapply NoDup_lookup; eassumption). subst i.
      split; [intros Ht; specialize (Hpos Ht); lia | congruence].
    - split; assumption. }
  pose proof (landed_frame _ _ _ _ _ Hland) as (Hps & _ & _ & _ & _ & Hrent2 & _).
  simpl in Hps, Hrent2.
  constructor; simpl.
  - exact Hinv'.
  - rewrite Hps. exact Hnd.
  - rewrite Hrent2. exact Hrents.
  - intros i p Hp. simpl in Hp. rewrite Hps in Hp.
    destruct Hland as [j property o Hj Ho Hbal|j property o Hj Ho Hbal|j property Hj Ho Hle
                       |j property Hj Ho]; simpl in *.
    + eapply (solvent_rent h1 g k player o (rent_cost property) (active_player g));
        try eassumption.
      * apply (Hown property o); [|exact Ho]. eapply list_elem_of_lookup_2. exact Hj.
      * eapply rent_nonneg; eassumption.
      * left. split; [exact Hbal | reflexivity].
    + eapply (solvent_rent h1 g k player o (rent_cost property)); try eassumption.
      * apply (Hown property o); [|exact Ho]. eapply list_elem_of_lookup_2. exact Hj.
      * eapply rent_nonneg; eassumption.
      * right. split; [exact Hbal | reflexivity].
    + destruct (Hsolv1 i p Hp) as [Hpos Hneg]. simpl in Hpos, Hneg.
      rewrite get_balance_decrease. destruct (Nat.eqb_spec p player) as [->|Hne].
      * assert (i = k) by (eapply NoDup_lookup; eassumption). subst i.
        split; [intros _; lia | congruence].
      * split; assumption.
    + exact (Hsolv1 i p Hp).
Qed.

Lemma new_Game_fair (h : heap) (b : Board) (ps : list ref) :
  NoDup ps ->
  Forall (fun pr => owner pr = None /\ 0 <= rent_cost pr) b ->
  (forall p, p ∈ ps -> 0 <= get_balance h p) ->
  fair (h, new_Game b ps).
Proof.
  intros Hnd Hb Hbal. constructor; simpl.
  - apply new_Game_inv. eapply Forall_impl; [|exact Hb]. simpl. tauto.
  - exact Hnd.
  - apply Forall_map. eapply Forall_impl; [|exact Hb]. simpl. tauto.
  - intros i p Hp. simpl in *. split.
    + intros _. apply Hbal. eapply list_elem_of_lookup_2. exact Hp.
    + intros Hfalse. exfalso.
      change (map (fun _ : ref => true) ps) with (fmap (M := list) (fun _ : ref => true) ps)
        in Hfalse.
      rewrite list_lookup_fmap, Hp in Hfalse. discriminate Hfalse.
Qed.

Lemma turns_fair (s s' : heap * Game) : turns s s' -> fair s -> fair s'.
Proof.
  induction 1 as [|s' s'' fuel d c _ IH Hturn]; intros Hfair; [exact Hfair|].
  eapply turn_keeps_fair; [exact Hturn | apply IH; exact Hfair].
Qed.

(** X13.  In a game of distinct players who all start without debt, on a board
    without owners and without negative rents, whatever turns are played:
    every active player has a balance of zero or more, every eliminated
    player has a negative balance, and the player with the highest balance
    is an active player. *)
Theorem debts_of_a_fair_game (h : heap) (b : Board) (ps : list ref) (s : heap * Game) :
  NoDup ps ->
  Forall (fun pr => owner pr = None /\ 0 <= rent_cost pr) b ->
  (forall p, p ∈ ps -> 0 <= get_balance h p) ->
  turns (h, new_Game b ps) s ->
  solvent s /\
  (forall p, player_with_highest_balance (fst s) (snd s) = Ok p ->
             exists i : nat, players (snd s) !! i = Some p /\
                             active_player (snd s) !! i = Some true).
Proof.
  intros Hnd Hb Hbal Hturns.
  pose proof (turns_fair _ _ Hturns (new_Game_fair h b ps Hnd Hb Hbal))
    as [Hinv _ _ Hsolv].
  split; [exact Hsolv|].
  destruct s as [h' g]. simpl in *. intros p Hp.
  assert (Hne : players g <> []).
  { intros E. unfold player_with_highest_balance in Hp. rewrite E in Hp. discriminate Hp. }
  destruct (player_with_highest_balance_spec h' g Hne) as (p' & Hp' & Hin & Hmax).
  assert (p' = p) by congruence. subst p'.
  apply list_elem_of_lookup in Hin as [i Hi]. exists i. split; [exact Hi|].
  destruct Hinv as [Hlen Hcur _].
  destruct Hcur as [Hnil|[Hcp Hact]]; [contradiction|].
  destruct (lookup_lt_is_Some_2 (active_player g) i) as [[|] Ha].
  - rewrite Hlen. eapply lookup_lt_Some. exact Hi.
  - exact Ha.
  - exfalso.
    destruct (lookup_lt_is_Some_2 (players g) (Z.to_nat (current_player g)))
      as [q Hq]; [lia|].
    destruct (Hsolv i p Hi) as [_ Hneg]. simpl in Hneg. specialize (Hneg Ha).
    destruct (Hsolv _ q Hq) as [Hpos _]. simpl in Hpos. specialize (Hpos Hact).
    assert (get_balance h' q <= get_balance h' p).
    { apply Hmax. eapply list_elem_of_lookup_2. exact Hq. }
    lia.
Qed.

Lemma debts_of_a_fair_game_witness :
  match turn 4 2 false
          (report_heap,
           new_Game [new_Property 120 7; new_Property 2 9] report_players) with
  | Ok s => solvent s
  | _ => False
  end.
Proof.
  destruct (turn 4 2 false
              (report_heap,
               new_Game [new_Property 120 7; new_Property 2 9] report_players))
    as [s| |] eqn:E.
  - apply (debts_of_a_fair_game report_heap
             [new_Property 120 7; new_Property 2 9] report_players s).
    + apply (bool_decide_unpack _). vm_compute. reflexivity.
    + repeat constructor; simpl; lia.
    + intros p _. unfold get_balance, report_heap.
      destruct p as [|[|[|p]]]; simpl; lia.
    + eapply turns_step; [apply turns_refl | exact E].
  - vm_compute in E. discriminate E.
  - vm_compute in E. discriminate E.
Defined.

(** ** The bookkeeping of a runner *)

Lemma new_GameRunner_tallied (ps : list ref) (max_sell max_rent : Z) :
  tallied (new_GameRunner ps max_sell max_rent).
Proof.
  constructor; simpl; [|reflexivity|reflexivity].
  exists 0, 0, 0, 0. repeat split; lia.
Qed.

Lemma play_game_tallied (depth fuel : nat) (d : Draws) (h h' : heap)
    (r r' : GameRunner) :
  play_game depth fuel d (h, r) = Ok (h', r') ->
  tallied r ->
  tallied r' /\
  games_simulated r' = games_simulated r + 1 /\
  runner_players r' = runner_players r /\
  max_sell_cost r' = max_sell_cost r /\
  max_rent_cost r' = max_rent_cost r.
Proof.
  unfold play_game. simpl. intros H [Hwins Hturns Hwinner].
  apply bind_Ok_inv in H as (game & _ & H).
  apply bind_Ok_inv in H as ([h1 g1] & _ & H). simpl in H.
  apply bind_Ok_inv in H as (w & _ & H).
  apply bind_Ok_inv in H as (tw & Htw & H).
  apply bind_Ok_inv in H as (wins & Hincr & H).
  injection H as <- <-. simpl.
  destruct Hwins as (a & b & c & e & Hd & Ha & Hb & Hc & He & Ht & Hsum).
  rewrite Hd in Hincr.
  split; [|auto].
  constructor; simpl.
  - destruct w as [p|].
    + injection Htw as <-. simpl. simpl in Hincr.
      destruct (behavior (h1 p)); simpl in Hincr; injection Hincr as <-.
      * exists (a + 1), b, c, e. repeat split; try lia.
      * exists a, (b + 1), c, e. repeat split; try lia.
      * exists a, b, (c + 1), e. repeat split; try lia.
      * exists a, b, c, (e + 1). repeat split; try lia.
    + apply bind_Ok_inv in Htw as (p & _ & Htw). injection Htw as <-. simpl.
      simpl in Hincr. injection Hincr as <-.
      exists a, b, c, e. repeat split; try lia.
  - rewrite length_app. simpl. lia.
  - destruct w as [p|].
    + injection Htw as <-. simpl. rewrite !length_app. simpl. lia.
    + apply bind_Ok_inv in Htw as (p & _ & Htw). injection Htw as <-. simpl.
      rewrite !length_app. simpl. lia.
Qed.

Lemma play_games_tallied (depth fuel : nat) (draws : list Draws) :
  forall (h h' : heap) (r r' : GameRunner),
    play_games depth fuel draws (h, r) = Ok (h', r') ->
    tallied r ->
    tallied r' /\
    games_simulated r' = games_simulated r + Z.of_nat (length draws) /\
    runner_players r' = runner_players r.
Proof.
  induction draws as [|d draws IH]; intros h h' r r' H Ht; simpl in H.
  - injection H as <- <-. split; [exact Ht|]. split; [simpl; lia | reflexivity].
  - apply bind_Ok_inv in H as ([h1 r1] & H1 & H).
    apply play_game_tallied in H1 as (Ht1 & Hg1 & Hp1 & _ & _); [|exact Ht].
    apply IH in H as (Ht' & Hg' & Hp'); [|exact Ht1].
    split; [exact Ht'|]. split; [|congruence].
    rewrite Hg', Hg1. simpl length. lia.
Qed.

(** X18.  After the games of a run that raised nothing, the runner has played as
    many games as it was asked, recorded one turn count and one winner per
    game, and given each game to exactly one key of [wins_per_behavior]:
    the four counts of the behaviours and the number of timed out games,
    kept under [type(None)], add up to the number of games. *)
Theorem play_games_bookkeeping (depth fuel : nat) (draws : list Draws)
    (ps : list ref) (max_sell max_rent : Z) (h h' : heap) (r : GameRunner) :
  play_games depth fuel draws (h, new_GameRunner ps max_sell max_rent)
    = Ok (h', r) ->
  games_simulated r = Z.of_nat (length draws) /\
  length (num_turns r) = length draws /\
  length (winner r) = length draws /\
  runner_players r = ps /\
  exists a b c d : Z,
    wins_per_behavior r =
      [(Some ImpulsivePlayer, a); (Some DemandingPlayer, b);
       (Some CautiousPlayer, c); (Some RandomPlayer, d);
       (None, get_timed_out_games r)] /\
    0 <= a /\ 0 <= b /\ 0 <= c /\ 0 <= d /\ 0 <= get_timed_out_games r /\
    a + b + c + d + get_timed_out_games r = Z.of_nat (length draws).
Proof.
  intros H.
  apply play_games_tallied in H as ([Hwins Hturns Hwinner] & Hgames & Hps);
    [|apply new_GameRunner_tallied].
  simpl in Hgames, Hps.
  assert (Hlen : length (num_turns r) = length draws) by lia.
  split; [lia|]. split; [exact Hlen|]. split; [congruence|]. split; [exact Hps|].
  destruct Hwins as (a & b & c & e & Hd & Ha & Hb & Hc & He & Ht & Hsum).
  exists a, b, c, e. unfold get_timed_out_games. repeat split; try assumption. lia.
Qed.

Lemma play_games_bookkeeping_witness :
  exists (h' : heap) (r : GameRunner),
    play_games 4 999 [first_game; second_game] (report_heap, report_runner)
      = Ok (h', r) /\
    games_simulated r = 2 /\ length (winner r) = 2%nat.
Proof.
  assert (E : exists h' r,
             play_games 4 999 [first_game; second_game] (report_heap, report_runner)
             = Ok (h', r)).
  { eexists _, _. vm_compute. reflexivity. }
  destruct E as (h' & r & E).
  destruct (play_games_bookkeeping 4 999 [first_game; second_game] report_players
              5000 1000000 report_heap h' r E) as (Hg & _ & Hw & _).
  exists h', r. split; [exact E|]. split; [exact Hg | exact Hw].
Defined.



(** ** Positions *)

(** X11.  On a well-formed game a turn that returns moves the current player to
    the old position plus the die roll, modulo the length of the board, and
    leaves the positions of the other players as they were. *)
Theorem turn_position (fuel : nat) (die_roll : Z) (coin : bool)
    (h h' : heap) (g g' : Game) (pos : Z) :
  wf_game g ->
  0 <= die_roll ->
  player_position g !! Z.to_nat (current_player g) = Some pos ->
  turn fuel die_roll coin (h, g) = Ok (h', g') ->
  player_position g' =
    <[Z.to_nat (current_player g) :=
        (pos + die_roll) mod Z.of_nat (length (board g))]> (player_position g).
Proof.
  intros Hwf Hdie Hpos H.
  destruct (turn_move_wf h g die_roll Hwf) as (player & pos' & Hplayer & Hpos' & Hmove).
  simpl in Hmove. assert (pos' = pos) by congruence. subst pos'.
  unfold turn in H. rewrite Hmove in H. simpl in H.
  apply bind_Ok_inv in H as ([h2 g2] & Hland & Hend).
  apply turn_land_landed in Hland; simpl.
  - apply landed_frame in Hland as (_ & Hpp & _). simpl in Hpp.
    unfold turn_end in Hend. simpl in Hend.
    apply bind_Ok_inv in Hend as (g3 & Hnext & Hend). injection Hend as _ <-.
    apply next_player_turn_Ok in Hnext as (cp & -> & _ & _). simpl.
    rewrite Hpp. f_equal.
    pose proof (wf_on_board g Hwf) as Hon.
    eapply Forall_lookup_1 in Hon; [|exact Hpos]. simpl in Hon.
    destruct (Z.leb_spec (Z.of_nat (length (board g))) (pos + die_roll));
      [reflexivity|].
    rewrite Z.mod_small by lia. reflexivity.
  - rewrite (wf_active g Hwf). exact (wf_current g Hwf).
  - apply getitem_nonneg; [|exact Hplayer]. destruct (wf_current g Hwf). lia.
Qed.

Lemma turn_position_witness :
  exists h' g',
    turn 4 6 false
      (report_heap,
       with_player_position
         (new_Game [new_Property 900 1; new_Property 900 1; new_Property 900 1]
                   report_players)
         [2; 0; 0; 0])
    = Ok (h', g') /\
    player_position g' = [2; 0; 0; 0].
Proof.
  assert (E : exists h' g',
             turn 4 6 false
               (report_heap,
                with_player_position
                  (new_Game [new_Property 900 1; new_Property 900 1; new_Property 900 1]
                            report_players)
                  [2; 0; 0; 0])
             = Ok (h', g')).
  { eexists _, _. vm_compute. reflexivity. }
  destruct E as (h' & g' & E).
  exists h', g'. split; [exact E|].
  apply (turn_position 4 6 false report_heap h'
           (with_player_position
              (new_Game [new_Property 900 1; new_Property 900 1; new_Property 900 1]
                        report_players)
              [2; 0; 0; 0]) g' 2).
  - constructor; simpl; try reflexivity; try lia; try discriminate.
    + repeat constructor; lia.
    + exists 0%nat. reflexivity.
  - lia.
  - reflexivity.
  - exact E.
Defined.

(** ** Buying, by behaviour *)

(** X12.  The attempt to buy either changes nothing or is a purchase the player
    can pay: the balance falls by the price and stays at zero or more.  A
    demanding player only buys when the rent is above 50, a cautious player
    only when 80 or more is left, a random player only when the coin says
    so. *)
Theorem try_to_buy_spec (coin : bool) (player : ref) (pos : Z) (property : Property)
    (h h' : heap) (g g' : Game) :
  try_to_buy coin player pos property (h, g) = Ok (h', g') ->
  (h' = h /\ g' = g) \/
  (h' = decrease_balance h player (sell_cost property) /\
   get_balance h' player = get_balance h player - sell_cost property /\
   0 <= get_balance h' player /\
   match behavior (h player) with
   | ImpulsivePlayer => True
   | DemandingPlayer => 50 < rent_cost property
   | CautiousPlayer => 80 <= get_balance h' player
   | RandomPlayer => coin = true
   end).
Proof.
  unfold try_to_buy. simpl. intros H.
  destruct (Z.leb_spec (sell_cost property) (get_balance h player)) as [Hle|Hgt];
    simpl in H; [|injection H as <- <-; left; auto].
  destruct (decide_to_buy h player property coin) eqn:Hbuy;
    [|injection H as <- <-; left; auto].
  apply bind_Ok_inv in H as (b & _ & H). injection H as <- <-. right.
  split; [reflexivity|].
  rewrite get_balance_decrease, Nat.eqb_refl.
  split; [reflexivity|]. split; [lia|].
  unfold decide_to_buy in Hbuy. destruct (behavior (h player)).
  - exact I.
  - apply Z.ltb_lt. exact Hbuy.
  - apply Z.leb_le in Hbuy. lia.
  - exact Hbuy.
Qed.

Lemma try_to_buy_spec_witness :
  try_to_buy false 2%nat 0 (new_Property 250 7)
    (report_heap, new_Game [new_Property 250 7] report_players)
  = Ok (report_heap, new_Game [new_Property 250 7] report_players).
Proof.
  assert (E : exists h' g',
             try_to_buy false 2%nat 0 (new_Property 250 7)
               (report_heap, new_Game [new_Property 250 7] report_players)
             = Ok (h', g')).
  { eexists _, _. vm_compute. reflexivity. }
  destruct E as (h' & g' & E).
  destruct (try_to_buy_spec _ _ _ _ _ _ _ _ E) as [[-> ->]|(_ & Hbal & _ & Hc)].
  - exact E.
  - exfalso. simpl in Hc, Hbal.
    change (get_balance report_heap 2%nat) with 300 in Hbal. lia.
Defined.

(** ** Ties *)

Lemma filter_first {A : Type} (f : A -> bool) (l : list A) (x : A) (rest : list A) :
  List.filter f l = x :: rest ->
  exists i : nat,
    l !! i = Some x /\ f x = true /\
    forall (j : nat) (y : A), (j < i)%nat -> l !! j = Some y -> f y = false.
Proof.
  induction l as [|a l IH]; simpl; [discriminate|].
  destruct (f a) eqn:Ha.
  - intros H. injection H as -> _. exists 0%nat.
    split; [reflexivity|]. split; [exact Ha|]. intros j y Hj. lia.
  - intros H. destruct (IH H) as (i & Hi & Hx & Hbefore).
    exists (S i). split; [exact Hi|]. split; [exact Hx|].
    intros [|j] y Hj Hy; simpl in Hy.
    + injection Hy as <-. exact Ha.
    + apply (Hbefore j y); [lia | exact Hy].
Qed.

(** X14.  [player_with_highest_balance] raises [ValueError] on a game without
    players; otherwise it returns, among the players with the highest
    balance, the one that comes first in the list: every player before it
    has a strictly lower balance. *)
Theorem player_with_highest_balance_first (h : heap) (g : Game) :
  (players g = [] -> player_with_highest_balance h g = Raise ValueError) /\
  (forall p, player_with_highest_balance h g = Ok p ->
             exists i : nat,
               players g !! i = Some p /\
               (forall q, q ∈ players g -> get_balance h q <= get_balance h p) /\
               forall (j : nat) (q : ref),
                 (j < i)%nat -> players g !! j = Some q ->
                 get_balance h q < get_balance h p).
Proof.
  split.
  - intros E. unfold player_with_highest_balance. rewrite E. reflexivity.
  - intros p Hp.
    assert (Hne : players g <> []).
    { intros E. unfold player_with_highest_balance in Hp. rewrite E in Hp.
      discriminate Hp. }
    destruct (player_with_highest_balance_spec h g Hne) as (p' & Hp' & _ & Hmax).
    assert (p' = p) by congruence. subst p'.
    unfold player_with_highest_balance in Hp.
    apply bind_Ok_inv in Hp as (m & Hm & Hp).
    destruct (List.filter (fun q => get_balance h q =? m) (players g))
      as [|x rest] eqn:E; [discriminate Hp|].
    assert (x = p) by (vm_compute in Hp; congruence). subst x.
    apply filter_first in E as (i & Hi & Hpm & Hbefore).
    apply Z.eqb_eq in Hpm.
    exists i. split; [exact Hi|]. split; [exact Hmax|].
    intros j q Hj Hq.
    assert (get_balance h q <= get_balance h p)
      by (apply Hmax; eapply list_elem_of_lookup_2; exact Hq).
    specialize (Hbefore j q Hj Hq). simpl in Hbefore.
    apply Z.eqb_neq in Hbefore. lia.
Qed.

Lemma player_with_highest_balance_first_witness :
  player_with_highest_balance report_heap (new_Game [] report_players) = Ok 0%nat.
Proof.
  assert (E : exists p, player_with_highest_balance report_heap
                          (new_Game [] report_players) = Ok p).
  { eexists. vm_compute. reflexivity. }
  destruct E as [p E].
  destruct (player_with_highest_balance_first report_heap (new_Game [] report_players))
    as [_ H].
  destruct (H p E) as (i & Hi & _ & Hbefore).
  destruct i as [|i].
  - simpl in Hi. injection Hi as <-. exact E.
  - exfalso. specialize (Hbefore 0%nat 0%nat ltac:(lia) eq_refl).
    assert (Hb : get_balance report_heap p = 300).
    { unfold get_balance, report_heap. destruct p as [|[|[|p]]]; reflexivity. }
    rewrite Hb in Hbefore. vm_compute in Hbefore. discriminate Hbefore.
Defined.

(** ** Random boards *)

Lemma random_board_cells (max_sell max_rent : Z) (draws : nat -> Z * Z) :
  1 <= max_sell -> 1 <= max_rent ->
  random_board max_sell max_rent draws =
    Ok (map (fun i => new_Property (fst (draws i)) (snd (draws i))) (seq 0 20)).
Proof.
  intros Hs Hr. unfold random_board. apply mapM_map.
  intros i. unfold random_property.
  destruct (Z.ltb_spec max_sell 1); [lia|].
  destruct (Z.ltb_spec max_rent 1); [lia|]. reflexivity.
Qed.

Lemma random_board_ValueError (max_sell max_rent : Z) (draws : nat -> Z * Z) :
  max_sell < 1 \/ max_rent < 1 ->
  random_board max_sell max_rent draws = Raise ValueError.
Proof.
  intros H. unfold random_board. simpl. unfold random_property.
  destruct (Z.ltb_spec max_sell 1); [reflexivity|].
  destruct (Z.ltb_spec max_rent 1); [reflexivity|]. lia.
Qed.

(** X15.  With both maxima at 1 or more, [random_board] returns the 20 properties
    of the drawn prices, in order, none with an owner.  With a maximum below
    1 it raises [ValueError], and so does [play_game], before any game is
    played. *)
Theorem random_board_spec (max_sell max_rent : Z) (draws : nat -> Z * Z) :
  (1 <= max_sell -> 1 <= max_rent ->
   random_board max_sell max_rent draws =
     Ok (map (fun i => new_Property (fst (draws i)) (snd (draws i))) (seq 0 20))) /\
  (max_sell < 1 \/ max_rent < 1 ->
   random_board max_sell max_rent draws = Raise ValueError /\
   forall (depth fuel : nat) (d : Draws) (h : heap) (r : GameRunner),
     max_sell_cost r = max_sell -> max_rent_cost r = max_rent ->
     play_game depth fuel d (h, r) = Raise ValueError).
Proof.
  split; [apply random_board_cells|].
  intros H. split; [apply random_board_ValueError; exact H|].
  intros depth fuel d h r Hs Hr. unfold play_game, random_game. simpl.
  rewrite random_board_ValueError by (rewrite Hs, Hr; exact H). reflexivity.
Qed.

Lemma random_board_spec_witness :
  play_game 4 999 first_game (report_heap, new_GameRunner report_players 0 80)
  = Raise ValueError.
Proof.
  destruct (random_board_spec 0 80 (prices first_game)) as [_ H].
  destruct H as [_ H]; [left; lia|].
  apply H; reflexivity.
Defined.

(** ** Games that end *)

Lemma play_stops_wf (depth fuel : nat) :
  forall (rolls : nat -> Z * bool) (h : heap) (g : Game),
    wf_game g ->
    (forall k, 0 <= fst (rolls k)) ->
    (length (players g) <= depth)%nat ->
    (Z.to_nat (1000 - current_turn g) <= fuel)%nat ->
    exists h' g',
      play depth fuel rolls (h, g) = Ok (h', g') /\
      stop_condtion g' = Ok true /\
      wf_game g' /\
      players g' = players g /\
      current_turn g <= current_turn g' <= Z.max 1000 (current_turn g).
Proof.
  induction fuel as [|fuel IH]; intros rolls h g Hwf Hrolls Hdepth Hfuel;
    destruct (stop_condtion_wf g (wf_active g Hwf)) as [[|] Hstop].
  - exists h, g. rewrite play_stopped by exact Hstop.
    split; [reflexivity|]. split; [exact Hstop|]. split; [exact Hwf|].
    split; [reflexivity | lia].
  - destruct (two_active g (wf_active g Hwf) (wf_some_active g Hwf) Hstop) as [Hlt _].
    lia.
  - exists h, g. rewrite play_stopped by exact Hstop.
    split; [reflexivity|]. split; [exact Hstop|]. split; [exact Hwf|].
    split; [reflexivity | lia].
  - destruct (two_active g (wf_active g Hwf) (wf_some_active g Hwf) Hstop) as [Hlt _].
    destruct (turn_wf depth (fst (rolls O)) (snd (rolls O)) h g Hwf Hstop
                (Hrolls O) Hdepth) as (h1 & g1 & Hturn & Hturn1 & Hps & Hwf1).
    destruct (IH (fun k => rolls (S k)) h1 g1 Hwf1)
      as (h' & g' & Hplay & Hstop' & Hwf' & Hps' & Hb).
    + intros k. apply Hrolls.
    + rewrite Hps. exact Hdepth.
    + lia.
    + exists h', g'. rewrite play_running by exact Hstop.
      rewrite Hturn. simpl.
      split; [exact Hplay|]. split; [exact Hstop'|]. split; [exact Hwf'|].
      split; [congruence | lia].
Qed.

(** X16.  A game that starts well-formed and not after turn 1000 ends in one of
    two ways: with a winner, who is the only active player left, or without
    winner at turn 1000 exactly. *)
Theorem play_outcome (depth fuel : nat) (rolls : nat -> Z * bool)
    (h : heap) (g : Game) :
  wf_game g ->
  current_turn g <= 1000 ->
  (forall k, 1 <= fst (rolls k) <= 6) ->
  (length (players g) <= depth)%nat ->
  (Z.to_nat (1000 - current_turn g) <= fuel)%nat ->
  exists h' g',
    play depth fuel rolls (h, g) = Ok (h', g') /\
    current_turn g' <= 1000 /\
    ((exists (p : ref) (i : nat),
         has_winner g' = Ok (Some p) /\
         players g' !! i = Some p /\
         active_player g' !! i = Some true /\
         forall j : nat, active_player g' !! j = Some true -> j = i) \/
     (has_winner g' = Ok None /\ current_turn g' = 1000)).
Proof.
  intros Hwf Hturn Hrolls Hdepth Hfuel.
  destruct (play_stops_wf depth fuel rolls h g Hwf) as
    (h' & g' & Hplay & Hstop & Hwf' & _ & Hb); try assumption.
  { intros k. specialize (Hrolls k). lia. }
  exists h', g'. split; [exact Hplay|]. split; [lia|].
  unfold stop_condtion in Hstop.
  destruct (has_winner_wf g' (wf_active g' Hwf')) as (w & Hw & _).
  rewrite Hw in Hstop. simpl in Hstop. destruct w as [p|].
  - left. pose proof Hw as Hw'.
    apply has_winner_Some in Hw' as (i & Hi & Hact & Huniq);
      [|exact (wf_active g' Hwf')].
    exists p, i. auto.
  - right. split; [exact Hw|]. injection Hstop as Hstop.
    apply Z.leb_le in Hstop. lia.
Qed.

Lemma play_outcome_witness :
  exists h' g',
    play 4 999 (fun _ => (1, false))
         (report_heap, new_Game [new_Property 500 1] report_players) = Ok (h', g') /\
    current_turn g' <= 1000.
Proof.
  destruct (play_outcome 4 999 (fun _ => (1, false)) report_heap
              (new_Game [new_Property 500 1] report_players))
    as (h' & g' & Hplay & Hle & _).
  - apply new_Game_wf; discriminate.
  - simpl. lia.
  - intros k. simpl. lia.
  - simpl. lia.
  - simpl. lia.
  - exists h', g'. split; [exact Hplay | exact Hle].
Defined.

(** ** Games of a runner that raise nothing *)

Lemma dict_incr_tallied (r : GameRunner) (k : option Behavior) :
  tallied r -> exists wins, dict_incr (wins_per_behavior r) k = Ok wins.
Proof.
  intros [(a & b & c & e & Hd & _) _ _]. rewrite Hd.
  destruct k as [[| | |]|]; simpl; eauto.
Qed.

Lemma play_game_total (depth fuel : nat) (d : Draws) (h : heap) (r : GameRunner) :
  tallied r ->
  runner_players r <> [] ->
  1 <= max_sell_cost r ->
  1 <= max_rent_cost r ->
  (forall k, 1 <= fst (rolls d k) <= 6) ->
  (length (runner_players r) <= depth)%nat ->
  (999 <= fuel)%nat ->
  exists (h' : heap) (r' : GameRunner) (t : Z) (p : ref),
    play_game depth fuel d (h, r) = Ok (h', r') /\
    num_turns r' = num_turns r ++ [t] /\ 1 <= t <= 1000 /\
    winner r' = winner r ++ [p] /\ p ∈ runner_players r.
Proof.
  intros Ht Hps Hs Hr Hrolls Hdepth Hfuel.
  unfold play_game, random_game. cbn [fst snd].
  rewrite random_board_cells by assumption. cbn [bind].
  set (b := map (fun i => new_Property (fst (prices d i)) (snd (prices d i))) (seq 0 20)).
  assert (Hwf : wf_game (new_Game b (runner_players r))).
  { apply new_Game_wf; [discriminate | exact Hps]. }
  destruct (play_stops_wf depth fuel (rolls d) h _ Hwf)
    as (h' & g' & Hplay & Hstop & Hwf' & Hps' & Hb).
  { intros k. specialize (Hrolls k). lia. }
  { exact Hdepth. }
  { change (current_turn (new_Game b (runner_players r))) with 1. lia. }
  change (current_turn (new_Game b (runner_players r))) with 1 in Hb.
  change (players (new_Game b (runner_players r))) with (runner_players r) in Hps'.
  rewrite Hplay. cbn [bind fst snd].
  destruct (has_winner_wf g' (wf_active g' Hwf')) as (w & Hw & _).
  rewrite Hw. cbn [bind].
  destruct (dict_incr_tallied r (option_map (fun p => behavior (h' p)) w) Ht)
    as [wins Hwins].
  rewrite Hwins.
  destruct w as [p|].
  - cbn [bind fst snd].
    eexists _, _, _, p. split; [reflexivity|]. cbn [num_turns winner].
    split; [reflexivity|]. split; [lia|]. split; [reflexivity|].
    apply has_winner_Some in Hw as (i & Hi & _); [|exact (wf_active g' Hwf')].
    rewrite <- Hps'. eapply list_elem_of_lookup_2. exact Hi.
  - destruct (player_with_highest_balance_spec h' g') as (p & Hp & Hin & _).
    { rewrite Hps'. exact Hps. }
    rewrite Hp. cbn [bind fst snd].
    eexists _, _, _, p. split; [reflexivity|]. cbn [num_turns winner].
    split; [reflexivity|]. split; [lia|]. split; [reflexivity|].
    rewrite <- Hps'. exact Hin.
Qed.

(** X17.  With players, maxima of 1 or more, die rolls from 1 to 6 and a
    bookkeeping in order, [play_game] raises nothing: it records a turn
    count between 1 and 1000 and a winner who is one of the runner's
    players. *)
Theorem play_game_returns (depth fuel : nat) (d : Draws) (h : heap) (r : GameRunner) :
  tallied r ->
  runner_players r <> [] ->
  1 <= max_sell_cost r ->
  1 <= max_rent_cost r ->
  (forall k, 1 <= fst (rolls d k) <= 6) ->
  (length (runner_players r) <= depth)%nat ->
  (999 <= fuel)%nat ->
  exists (h' : heap) (r' : GameRunner) (t : Z) (p : ref),
    play_game depth fuel d (h, r) = Ok (h', r') /\
    num_turns r' = num_turns r ++ [t] /\ 1 <= t <= 1000 /\
    winner r' = winner r ++ [p] /\ p ∈ runner_players r.
Proof. apply play_game_total. Qed.

Lemma play_game_returns_witness :
  exists (h' : heap) (r' : GameRunner),
    play_game 4 999 second_game (report_heap, report_runner) = Ok (h', r').
Proof.
  destruct (play_game_returns 4 999 second_game report_heap report_runner)
    as (h' & r' & t & p & H & _).
  - apply new_GameRunner_tallied.
  - discriminate.
  - simpl. lia.
  - simpl. lia.
  - intros k. unfold second_game, dice_of. simpl.
    do 14 (destruct k as [|k]; [simpl; lia|]). destruct k; simpl; lia.
  - simpl. lia.
  - lia.
  - exists h', r'. exact H.
Defined.

Lemma play_games_total (depth fuel : nat) (draws : list Draws) :
  forall (h : heap) (r : GameRunner),
    tallied r ->
    runner_players r <> [] ->
    1 <= max_sell_cost r ->
    1 <= max_rent_cost r ->
    Forall (fun d => forall k, 1 <= fst (rolls d k) <= 6) draws ->
    (length (runner_players r) <= depth)%nat ->
    (999 <= fuel)%nat ->
    exists (h' : heap) (r' : GameRunner),
      play_games depth fuel draws (h, r) = Ok (h', r').
Proof.
  induction draws as [|d draws IH]; intros h r Ht Hps Hs Hr Hrolls Hdepth Hfuel.
  - exists h, r. reflexivity.
  - inversion Hrolls as [|? ? Hd Hrest]; subst.
    destruct (play_game_total depth fuel d h r Ht Hps Hs Hr Hd Hdepth Hfuel)
      as (h1 & r1 & t & p & H1 & _).
    destruct (play_game_tallied _ _ _ _ _ _ _ H1 Ht) as (Ht1 & _ & Hps1 & Hs1 & Hr1).
    destruct (IH h1 r1 Ht1) as (h' & r' & H'); try assumption; try congruence.
    exists h', r'. simpl. rewrite H1. simpl. exact H'.
Qed.

(** X20.  Asked for one game or more, with maxima of 1 or more and die rolls from
    1 to 6, [report] raises nothing: it gets a number of timed out games
    between 0 and the number of games, an average, and one percentage for
    each of the four behaviours. *)
Theorem report_returns (depth fuel : nat) (max_sell max_rent : Z) (draws : list Draws) :
  draws <> [] ->
  1 <= max_sell -> 1 <= max_rent ->
  Forall (fun d => forall k, 1 <= fst (rolls d k) <= 6) draws ->
  (4 <= depth)%nat -> (999 <= fuel)%nat ->
  exists (timed_out : Z) (average : Q) (percentages : list (option Behavior * Q)),
    report depth fuel max_sell max_rent draws = Ok (timed_out, average, percentages) /\
    0 <= timed_out <= Z.of_nat (length draws) /\
    map fst percentages =
      [Some ImpulsivePlayer; Some DemandingPlayer; Some CautiousPlayer;
       Some RandomPlayer].
Proof.
  intros Hne Hs Hr Hrolls Hdepth Hfuel. unfold report.
  destruct (play_games_total depth fuel draws report_heap
              (new_GameRunner report_players max_sell max_rent))
    as (h' & r & Hplay); try assumption.
  { apply new_GameRunner_tallied. }
  { discriminate. }
  rewrite Hplay. cbn [bind snd].
  apply play_games_tallied in Hplay as (Ht & Hgames & _);
    [|apply new_GameRunner_tallied].
  simpl in Hgames.
  assert (Hpos : 0 < games_simulated r).
  { destruct draws; [contradiction | simpl length in Hgames; lia]. }
  destruct Ht as [(a & b & c & e & Hd & Ha & Hb & Hc & He & Hto & Hsum) Hturns Hwinner].
  unfold get_average_num_turns, get_win_percentage_per_behavior, truediv.
  destruct (Z.eqb_spec (Z.of_nat (length (num_turns r))) 0); [lia|].
  rewrite Hd. cbn [bind].
  destruct (Z.eqb_spec (games_simulated r) 0); [lia|].
  eexists _, _, _. split; [reflexivity|].
  unfold get_timed_out_games. split; [lia | reflexivity].
Qed.

Lemma report_returns_witness :
  exists res, report 4 999 5000 1000000 [first_game; second_game] = Ok res.
Proof.
  destruct (report_returns 4 999 5000 1000000 [first_game; second_game])
    as (t & avg & pct & H & _).
  - discriminate.
  - lia.
  - lia.
  - repeat constructor;
      unfold first_game, second_game, dice_of; simpl;
      do 14 (destruct k as [|k]; [simpl; lia|]); destruct k; simpl; lia.
  - lia.
  - lia.
  - eexists. exact H.
Defined.

(** ** Who pays and who is paid *)

(** X10.  A turn that returns changes at most two player objects: the current
    player and one other, the owner of the property landed on. *)
Theorem turn_touches_two_players (fuel : nat) (die_roll : Z) (coin : bool)
    (h h' : heap) (g g' : Game) :
  0 <= current_player g < Z.of_nat (length (active_player g)) ->
  turn fuel die_roll coin (h, g) = Ok (h', g') ->
  exists player o : ref,
    getitem (players g) (current_player g) = Ok player /\
    forall p, p <> player -> p <> o -> h' p = h p.
Proof.
  intros Hcp H.
  apply turn_Ok_inv in H
    as (player & pp & bonus & g2 & cp & Hplayer & Hland & _ & _ & _); [|exact Hcp].
  assert (Hbonus : forall p, p <> player ->
                     (if bonus then increase_balance h player 100 else h) p = h p).
  { intros p Hp. destruct bonus; [|reflexivity].
    unfold increase_balance, heap_set.
    destruct (Nat.eqb_spec p player); [contradiction | reflexivity]. }
  assert (Htr : forall o amount p, p <> player -> p <> o ->
                  transfer (if bonus then increase_balance h player 100 else h)
                           player o amount p = h p).
  { intros o amount p Hp Ho. rewrite <- (Hbonus p Hp).
    unfold transfer. destruct (Nat.eqb player o); [reflexivity|].
    unfold decrease_balance, increase_balance, heap_set.
    destruct (Nat.eqb_spec p player); [contradiction|].
    destruct (Nat.eqb_spec p o); [contradiction | reflexivity]. }
  destruct Hland as [k property o Hk Ho Hbal|k property o Hk Ho Hbal|k property Hk Ho Hle
                     |k property Hk Ho].
  - exists player, o. split; [exact Hplayer|]. intros p Hp Hpo. apply Htr; assumption.
  - exists player, o. split; [exact Hplayer|]. intros p Hp Hpo. apply Htr; assumption.
  - exists player, player. split; [exact Hplayer|]. intros p Hp _.
    rewrite <- (Hbonus p Hp). unfold decrease_balance, heap_set.
    destruct (Nat.eqb_spec p player); [contradiction | reflexivity].
  - exists player, player. split; [exact Hplayer|]. intros p Hp _. apply Hbonus. exact Hp.
Qed.

Lemma turn_touches_two_players_witness :
  exists h' g',
    turn 4 1 false
      (report_heap,
       mkGame [mkProperty 120 30 (Some 0%nat)] report_players 1 2
              [0; 0; 0; 0] [true; true; true; true])
    = Ok (h', g') /\
    h' 3%nat = report_heap 3%nat.
Proof.
  assert (E : exists h' g',
             turn 4 1 false
               (report_heap,
                mkGame [mkProperty 120 30 (Some 0%nat)] report_players 1 2
                       [0; 0; 0; 0] [true; true; true; true])
             = Ok (h', g') /\ h' 3%nat = report_heap 3%nat).
  { eexists _, _. split; vm_compute; reflexivity. }
  destruct E as (h' & g' & E & _).
  destruct (turn_touches_two_players 4 1 false report_heap h'
              (mkGame [mkProperty 120 30 (Some 0%nat)] report_players 1 2
                      [0; 0; 0; 0] [true; true; true; true]) g')
    as (player & o & Hplayer & Hframe).
  - simpl. lia.
  - exact E.
  - exists h', g'. split; [exact E|].
    vm_compute in Hplayer. injection Hplayer as <-.
    destruct (Nat.eq_dec 3%nat o) as [<-|Hne].
    + vm_compute in E. injection E as <- _. reflexivity.
    + apply Hframe; [discriminate | exact Hne].
Defined.
